(** * Resilience and state layer of the cluster-health MCP server

    A shallow embedding of three Go packages and the properties their
    specification states about them:

    - [pkg/cache/memory_cache.go]  (module [Cache]),
    - the session manager of [internal/server] (module [Session]),
    - [pkg/clients/retry.go]       (module [Retry]).

    Conventions of the embedding.  Go's [int64] and [int] are integers of [Z]
    with the wrap-around of [int64] written out where the code does
    arithmetic on counters.  [time.Time] is an instant in nanoseconds and
    [time.Duration] a number of nanoseconds, both in [Z].  [float64] values
    are idealised as exact rationals of [Q] (rounding is not modelled).  Go
    maps are [gmap]s.  Every method runs in a small state monad over the
    receiver and the part of the environment it reads: the system clock, the
    entropy source, the state captured by closures.  Mutexes are left out: the
    embedding describes one call running alone, which is what holding the
    lock guarantees. *)

From Stdlib Require Import ZArith QArith Lia List.
From Stdlib Require Import Strings.String Strings.Ascii Strings.Byte.
From Stdlib Require Import Numbers.DecimalString.
From stdpp Require Import gmap strings.

Local Open Scope Z_scope.

(* ===================================================================== *)
(** * The Go runtime, as far as the three packages use it                *)
(* ===================================================================== *)

(** ** Machine integers *)

Definition int64_min : Z := - 2 ^ 63.
Definition int64_max : Z := 2 ^ 63 - 1.

(** Two's complement reduction of an integer to [int64]. *)
Definition wrap64 (z : Z) : Z := (z + 2 ^ 63) mod 2 ^ 64 - 2 ^ 63.

Definition int64_add (x y : Z) : Z := wrap64 (x + y).

Definition in_int64 (z : Z) : Prop := int64_min <= z <= int64_max.

(** ** Time *)

Abbreviation Time := Z (only parsing).
Abbreviation Duration := Z (only parsing).

Definition Nanosecond : Duration := 1.
Definition Microsecond : Duration := 1000 * Nanosecond.
Definition Millisecond : Duration := 1000 * Microsecond.
Definition Second : Duration := 1000 * Millisecond.
Definition Minute : Duration := 60 * Second.

(** [t.After(u)] *)
Definition Time_After (t u : Time) : bool := u <? t.

(** [t.Add(d)] *)
Definition Time_Add (t : Time) (d : Duration) : Time := t + d.

(** The system clock: [readings k n] is what the [n]-th call of [time.Now()]
    returns, [ticks k] counts the calls made so far. *)
Record Clock : Type := mkClock { readings : nat -> Time; ticks : nat }.

Definition clock_read (k : Clock) : Time := readings k (ticks k).
Definition clock_tick (k : Clock) : Clock := mkClock (readings k) (S (ticks k)).

(** A clock that never runs backwards. *)
Definition monotone (k : Clock) : Prop :=
  forall n : nat, readings k n <= readings k (S n).

(** ** Errors *)

Section Errors.
(** Errors made outside these packages (Kubernetes API errors, context
    errors, errors of a caller's closure). *)
Variable Cause : Type.
Variable Cause_Error : Cause -> string.

Inductive error : Type :=
| foreignError (c : Cause)
| wrapError (msg : string) (err : error)   (* fmt.Errorf with one %w *)
| errorString (msg : string).              (* fmt.Errorf without %w  *)

(** [err.Error()] *)
Definition Error (e : error) : string :=
  match e with
  | foreignError c => Cause_Error c
  | wrapError msg _ => msg
  | errorString msg => msg
  end.

(** [errors.Unwrap(err)] *)
Definition Unwrap (e : error) : option error :=
  match e with
  | wrapError _ err => Some err
  | _ => None
  end.

(** [fmt.Errorf(prefix + "%w", err)]: a [nil] operand is printed as a bad
    verb and nothing is wrapped. *)
Definition Errorf_w (prefix : string) (err : option error) : error :=
  match err with
  | Some e => wrapError (prefix +:+ Error e) e
  | None => errorString (prefix +:+ "%!w(<nil>)")
  end.
End Errors.

Arguments foreignError {Cause} c.
Arguments wrapError {Cause} msg err.
Arguments errorString {Cause} msg.
Arguments Error {Cause} Cause_Error e.
Arguments Unwrap {Cause} e.
Arguments Errorf_w {Cause} Cause_Error prefix err.

(** The verb [%d] of [fmt]. *)
Definition fmt_d (z : Z) : string := NilZero.string_of_int (Z.to_int z).

(** ** State monad *)

Definition M (St A : Type) : Type := St -> A * St.

Definition ret {St A : Type} (a : A) : M St A := fun s => (a, s).

Definition bind {St A B : Type} (m : M St A) (k : A -> M St B) : M St B :=
  fun s => let (a, s') := m s in k a s'.

Definition gets {St A : Type} (f : St -> A) : M St A := fun s => (f s, s).

Definition modify {St : Type} (f : St -> St) : M St unit := fun s => (tt, f s).

Declare Scope go_scope.
Delimit Scope go_scope with go.
Notation "'let*' x ':=' m 'in' k" := (bind m (fun x => k))
  (at level 10, x name, m at level 100, k at level 200) : go_scope.
Notation "'run' m 'then' k" := (bind m (fun _ => k))
  (at level 10, m at level 100, k at level 200) : go_scope.

(* ===================================================================== *)
(** * pkg/cache/memory_cache.go                                          *)
(* ===================================================================== *)

Module Cache.
Section MemoryCache.
(** [V] is what an [interface{}] can hold besides [nil]; [X] is the state
    a [compute] closure captures; [Err] is Go's [error]. *)
Context {V X Err : Type}.

Record CacheEntry : Type := mkEntry {
  Value : option V;
  Expiration : Time
}.

Record Statistics : Type := mkStatistics {
  Hits : Z;
  Misses : Z;
  Evictions : Z;
  Entries : Z;
  HitRate : Q
}.

Record stats_t : Type := mkStats { hits : Z; misses : Z; evictions : Z }.

Record MemoryCache : Type := mkCache {
  data : gmap string CacheEntry;
  defaultTTL : Duration;
  stats : stats_t
}.

(** What a call can touch: the cache it is called on, the clock, the state
    of the caller's closures, and a count of the closure calls made. *)
Record World : Type := mkWorld {
  cache : MemoryCache;
  clock : Clock;
  heap : X;
  compute_calls : nat
}.

Definition set_data (f : gmap string CacheEntry -> gmap string CacheEntry)
    (w : World) : World :=
  mkWorld (mkCache (f (data (cache w))) (defaultTTL (cache w)) (stats (cache w)))
          (clock w) (heap w) (compute_calls w).

Definition set_stats (f : stats_t -> stats_t) (w : World) : World :=
  mkWorld (mkCache (data (cache w)) (defaultTTL (cache w)) (f (stats (cache w))))
          (clock w) (heap w) (compute_calls w).

Definition time_Now : M World Time :=
  fun w => (clock_read (clock w),
            mkWorld (cache w) (clock_tick (clock w)) (heap w) (compute_calls w)).

Definition incr_hits (s : stats_t) : stats_t :=
  mkStats (int64_add (hits s) 1) (misses s) (evictions s).
Definition incr_misses (s : stats_t) : stats_t :=
  mkStats (hits s) (int64_add (misses s) 1) (evictions s).
Definition add_evictions (n : Z) (s : stats_t) : stats_t :=
  mkStats (hits s) (misses s) (int64_add (evictions s) n).

Local Open Scope go_scope.

(** [func (e *CacheEntry) IsExpired() bool] *)
Definition IsExpired (e : CacheEntry) : M World bool :=
  let* now := time_Now in
  ret (Time_After now (Expiration e)).

(** [func NewMemoryCache(defaultTTL time.Duration) *MemoryCache] *)
Definition NewMemoryCache (ttl : Duration) : MemoryCache :=
  mkCache ∅ ttl (mkStats 0 0 0).

(** [func (c *MemoryCache) Get(key string) (interface{}, bool)] *)
Definition Get (key : string) : M World (option V * bool) :=
  let* d := gets (fun w => data (cache w)) in
  match d !! key with
  | None =>
      run modify (set_stats incr_misses) then
      ret (None, false)
  | Some entry =>
      let* expired := IsExpired entry in
      if expired then
        run modify (set_stats incr_misses) then
        ret (None, false)
      else
        run modify (set_stats incr_hits) then
        ret (Value entry, true)
  end.

(** [func (c *MemoryCache) SetWithTTL(key, value, ttl)] *)
Definition SetWithTTL (key : string) (value : option V) (ttl : Duration)
    : M World unit :=
  let* now := time_Now in
  modify (set_data (fun d => <[key := mkEntry value (Time_Add now ttl)]> d)).

(** [func (c *MemoryCache) Set(key, value)] *)
Definition Set_ (key : string) (value : option V) : M World unit :=
  let* ttl := gets (fun w => defaultTTL (cache w)) in
  SetWithTTL key value ttl.

(** [func (c *MemoryCache) Delete(key string)]: the method has no result. *)
Definition Delete (key : string) : M World unit :=
  let* d := gets (fun w => data (cache w)) in
  match d !! key with
  | Some _ =>
      run modify (set_data (fun d => delete key d)) then
      modify (set_stats (add_evictions 1))
  | None => ret tt
  end.

(** [func (c *MemoryCache) Clear()] *)
Definition Clear : M World unit :=
  let* evicted := gets (fun w => Z.of_nat (size (data (cache w)))) in
  run modify (set_data (fun _ => ∅)) then
  modify (set_stats (add_evictions evicted)).

(** [func (c *MemoryCache) GetStatistics() Statistics] *)
Definition GetStatistics : M World Statistics :=
  let* s := gets (fun w => stats (cache w)) in
  let* n := gets (fun w => Z.of_nat (size (data (cache w)))) in
  let total := int64_add (hits s) (misses s) in
  let hitRate :=
    if 0 <? total
    then (inject_Z (hits s) / inject_Z total * 100)%Q
    else 0%Q in
  ret (mkStatistics (hits s) (misses s) (evictions s) n hitRate).

(** [func (c *MemoryCache) ResetStatistics()] *)
Definition ResetStatistics : M World unit :=
  modify (set_stats (fun _ => mkStats 0 0 0)).

(** One firing of the ticker in [cleanupExpired]: the body of the
    [case <-c.cleanupTicker.C] branch. *)
Definition cleanupExpired_tick : M World unit :=
  let* now := time_Now in
  let* d := gets (fun w => data (cache w)) in
  let expired (kv : string * CacheEntry) : Prop :=
    Time_After now (Expiration kv.2) = true in
  let expiredKeys := filter expired d in
  run modify (set_data (fun d => filter (fun kv => ~ expired kv) d)) then
  modify (set_stats (fun s => Nat.iter (size expiredKeys) (add_evictions 1) s)).

(** A call of a [compute] closure: it runs on the captured state and the
    call is counted. *)
Definition invoke {A : Type} (f : X -> A * X) : M World A :=
  fun w => let (a, h) := f (heap w) in
           (a, mkWorld (cache w) (clock w) h (S (compute_calls w))).

(** [func (c *MemoryCache) GetOrSet(ctx, key, compute) (interface{}, error)] *)
Definition GetOrSet (key : string)
    (compute : X -> (option V * option Err) * X)
    : M World (option V * option Err) :=
  let* r := Get key in
  if snd r then ret (fst r, None)
  else
    let* c := invoke compute in
    match snd c with
    | Some err => ret (None, Some err)
    | None =>
        run Set_ key (fst c) then
        ret (fst c, None)
    end.

(** [func (c *MemoryCache) GetOrSetWithTTL(ctx, key, ttl, compute)] *)
Definition GetOrSetWithTTL (key : string) (ttl : Duration)
    (compute : X -> (option V * option Err) * X)
    : M World (option V * option Err) :=
  let* r := Get key in
  if snd r then ret (fst r, None)
  else
    let* c := invoke compute in
    match snd c with
    | Some err => ret (None, Some err)
    | None =>
        run SetWithTTL key (fst c) ttl then
        ret (fst c, None)
    end.

End MemoryCache.

Arguments CacheEntry : clear implicits.
Arguments MemoryCache : clear implicits.
Arguments World : clear implicits.

End Cache.

(* ===================================================================== *)
(** * internal/server: the session manager                               *)
(* ===================================================================== *)

(** [encoding/hex] *)
Definition hextable : string := "0123456789abcdef".

Definition hex_char (n : N) : ascii :=
  match String.get (N.to_nat n) hextable with
  | Some c => c
  | None => "0"%char
  end.

(** [hex.EncodeToString(src)] *)
Definition EncodeToString (src : list byte) : string :=
  fold_right
    (fun b acc =>
       String (hex_char (N.shiftr (Byte.to_N b) 4))
              (String (hex_char (N.land (Byte.to_N b) 15)) acc))
    EmptyString src.

Module Session.
Section SessionManager.
(** [Meta] is [map[string]interface{}], which the manager never inspects. *)
Context {Meta Cause : Type}.
Variable Cause_Error : Cause -> string.

Record Session : Type := mkSession {
  ID : string;
  CreatedAt : Time;
  ExpiresAt : Time;
  LastUsed : Time;
  Metadata : Meta
}.

Record SessionManager : Type := mkManager {
  sessions : gmap string Session;
  ttl : Duration;
  maxSessons : Z
}.

(** The entropy source behind [crypto/rand]: the [n]-th read either fills
    the buffer from a byte generator or fails. *)
Record Entropy : Type := mkEntropy {
  source : nat -> (nat -> byte) + Cause;
  draws : nat
}.

Record World : Type := mkWorld {
  sm : SessionManager;
  clock : Clock;
  entropy : Entropy
}.

Definition set_sessions (f : gmap string Session -> gmap string Session)
    (w : World) : World :=
  mkWorld (mkManager (f (sessions (sm w))) (ttl (sm w)) (maxSessons (sm w)))
          (clock w) (entropy w).

Definition time_Now : M World Time :=
  fun w => (clock_read (clock w), mkWorld (sm w) (clock_tick (clock w)) (entropy w)).

(** [rand.Read(b)] on a buffer of [n] zero bytes: the buffer afterwards and
    the error. *)
Definition rand_Read (n : nat) : M World (list byte * option (error Cause)) :=
  fun w =>
    let e := entropy w in
    let w' := mkWorld (sm w) (clock w) (mkEntropy (source e) (S (draws e))) in
    match source e (draws e) with
    | inl gen => ((map gen (seq 0 n), None), w')
    | inr c => ((repeat x00 n, Some (foreignError c)), w')
    end.

Local Open Scope go_scope.

(** [len(sm.sessions)] *)
Definition len_sessions : M World Z :=
  gets (fun w => Z.of_nat (size (sessions (sm w)))).

(** A session is expired at [now] when [now.After(session.ExpiresAt)]. *)
Definition expired_at (now : Time) (s : Session) : bool :=
  Time_After now (ExpiresAt s).

(** [func NewSessionManager(sessionTTL time.Duration, maxSessions int)] *)
Definition NewSessionManager (sessionTTL : Duration) (maxSessions : Z)
    : SessionManager :=
  let sessionTTL := if sessionTTL =? 0 then 30 * Minute else sessionTTL in
  let maxSessions := if maxSessions =? 0 then 1000 else maxSessions in
  mkManager ∅ sessionTTL maxSessions.

(** [func (sm *SessionManager) cleanupExpiredLocked()] *)
Definition cleanupExpiredLocked : M World unit :=
  let* now := time_Now in
  modify (set_sessions (fun m => filter (fun kv : string * Session => expired_at now kv.2 = false) m)).

(** [func (sm *SessionManager) cleanupExpired()] *)
Definition cleanupExpired : M World unit := cleanupExpiredLocked.

(** [func generateSessionID() (string, error)] *)
Definition generateSessionID : M World (string * option (error Cause)) :=
  let* r := rand_Read 16 in
  match snd r with
  | Some err => ret (EmptyString, Some err)
  | None => ret (EncodeToString (fst r), None)
  end.

Definition capacity_error (max : Z) : error Cause :=
  errorString ("maximum sessions limit reached (" +:+ fmt_d max +:+ ")").

(** [func (sm *SessionManager) CreateSession(metadata)], returning a session pointer and an error *)
Definition CreateSession (metadata : Meta)
    : M World (option Session * option (error Cause)) :=
  let* n := len_sessions in
  let* max := gets (fun w => maxSessons (sm w)) in
  let* full :=
    (if max <=? n then
       run cleanupExpiredLocked then
       let* n' := len_sessions in
       ret (max <=? n')
     else ret false) in
  if full : bool then ret (None, Some (capacity_error max))
  else
    let* g := generateSessionID in
    match snd g with
    | Some err =>
        ret (None, Some (Errorf_w Cause_Error "failed to generate session ID: " (Some err)))
    | None =>
        let sessionID := fst g in
        let* now := time_Now in
        let* d := gets (fun w => ttl (sm w)) in
        let session := mkSession sessionID now (Time_Add now d) now metadata in
        run modify (set_sessions (fun m => <[sessionID := session]> m)) then
        ret (Some session, None)
    end.

(** [func (sm *SessionManager) DeleteSession(sessionID string) bool] *)
Definition DeleteSession (sessionID : string) : M World bool :=
  let* m := gets (fun w => sessions (sm w)) in
  match m !! sessionID with
  | Some _ =>
      run modify (set_sessions (fun m => delete sessionID m)) then
      ret true
  | None => ret false
  end.

(** [func (sm *SessionManager) GetSession(sessionID string) *Session] *)
Definition GetSession (sessionID : string) : M World (option Session) :=
  let* m := gets (fun w => sessions (sm w)) in
  match m !! sessionID with
  | None => ret None
  | Some session =>
      let* now := time_Now in
      if Time_After now (ExpiresAt session) then
        run DeleteSession sessionID then
        ret None
      else ret (Some session)
  end.

(** [func (sm *SessionManager) TouchSession(sessionID string) bool].  The
    method reads the clock three times: for the expiry test, for
    [LastUsed], and for [ExpiresAt]. *)
Definition TouchSession (sessionID : string) : M World bool :=
  let* m := gets (fun w => sessions (sm w)) in
  match m !! sessionID with
  | None => ret false
  | Some session =>
      let* now := time_Now in
      if Time_After now (ExpiresAt session) then
        run modify (set_sessions (fun m => delete sessionID m)) then
        ret false
      else
        let* used := time_Now in
        let* now' := time_Now in
        let* d := gets (fun w => ttl (sm w)) in
        let session' :=
          mkSession (ID session) (CreatedAt session) (Time_Add now' d) used
                    (Metadata session) in
        run modify (set_sessions (fun m => <[sessionID := session']> m)) then
        ret true
  end.

(** From package [time]: [d.String()] and [int(d.Seconds())]; and [len] of
    a metadata map. *)
Variable Duration_String : Duration -> string.
Variable Duration_whole_seconds : Duration -> Z.
Variable len_Metadata : Meta -> Z.

(** [type SessionInfo struct]; the fields are those of the Go struct, named
    apart from the fields of [Session]. *)
Record SessionInfo : Type := mkInfo {
  Info_ID : string;
  Info_CreatedAt : Time;
  Info_ExpiresAt : Time;
  Info_LastUsed : Time;
  TTLSeconds : Z;
  IsValid : bool;
  HasMetadata : bool
}.

(** [func (sm *SessionManager) GetSessionInfo(sessionID string) *SessionInfo];
    [time.Until] reads the clock once more. *)
Definition GetSessionInfo (sessionID : string) : M World (option SessionInfo) :=
  let* found := GetSession sessionID in
  match found with
  | None => ret None
  | Some session =>
      let* now := time_Now in
      ret (Some (mkInfo (ID session) (CreatedAt session) (ExpiresAt session)
                        (LastUsed session)
                        (Duration_whole_seconds (ExpiresAt session - now))
                        true
                        (0 <? len_Metadata (Metadata session))))
  end.

(** [type SessionStats struct] *)
Record SessionStats : Type := mkSessionStats {
  ActiveSessions : Z;
  ExpiredSessions : Z;
  TotalSessions : Z;
  MaxSessions : Z;
  SessionTTL : string
}.

(** The body of the [range] loop of [GetStats], on the pair of
    [activeCount] and [expiredCount]. *)
Definition count_session (now : Time) (_ : string) (session : Session)
    (counts : Z * Z) : Z * Z :=
  if Time_After now (ExpiresAt session)
  then (fst counts, snd counts + 1)
  else (fst counts + 1, snd counts).

(** [func (sm *SessionManager) GetStats() SessionStats] *)
Definition GetStats : M World SessionStats :=
  let* now := time_Now in
  let* m := gets (fun w => sessions (sm w)) in
  let counts := map_fold (count_session now) (0, 0) m in
  let* total := len_sessions in
  let* max := gets (fun w => maxSessons (sm w)) in
  let* d := gets (fun w => ttl (sm w)) in
  ret (mkSessionStats (fst counts) (snd counts) total max (Duration_String d)).

End SessionManager.

Arguments Session : clear implicits.
Arguments SessionManager : clear implicits.
Arguments Entropy : clear implicits.
Arguments World : clear implicits.
Arguments SessionInfo : clear implicits.
Arguments SessionStats : clear implicits.

End Session.

(* ===================================================================== *)
(** * pkg/clients/retry.go                                               *)
(* ===================================================================== *)

(** [time.Duration(f)] for a float [f]: truncation toward zero. *)
Definition Duration_of_float (f : Q) : Duration := Z.quot (Qnum f) (Z.pos (Qden f)).

Module Retry.
Section RetryWithBackoff.
(** [X] is the state the retried closure captures. *)
Context {Cause X : Type}.
Variable Cause_Error : Cause -> string.

(** The classification predicates of [k8s.io/apimachinery/pkg/api/errors]. *)
Variables IsTimeout IsServerTimeout IsTooManyRequests IsInternalError
          IsServiceUnavailable : error Cause -> bool.

Record RetryConfig : Type := mkConfig {
  MaxRetries : Z;
  InitialBackoff : Duration;
  MaxBackoff : Duration;
  Multiplier : Q
}.

(** A [context.Context] as the retry loop sees it.  [select_Done n d] tells
    whether the [n]-th [select] of the run, waiting for a timer of duration
    [d], receives from [ctx.Done()] rather than from the timer; Go picks
    among the ready cases of a [select] as it likes, so this is given by
    the environment.  [ctx_Err] is what [ctx.Err()] then returns. *)
Record Context : Type := mkContext {
  select_Done : nat -> Duration -> bool;
  ctx_Err : error Cause
}.

(** What a run does, newest event first. *)
Inductive Event : Type :=
| EvCall (result : option (error Cause))     (* [fn()] returned [result] *)
| EvSelect (backoff : Duration) (done : bool). (* the [select] statement *)

Record World : Type := mkWorld {
  heap : X;
  selects : nat;
  trace : list Event
}.

(** [func DefaultRetryConfig() *RetryConfig] *)
Definition DefaultRetryConfig : RetryConfig :=
  mkConfig 3 (100 * Millisecond) (5 * Second) 2%Q.

(** [func isRetryable(err error) bool] *)
Definition isRetryable (err : option (error Cause)) : bool :=
  match err with
  | None => false
  | Some e =>
      if IsTimeout e then true
      else if IsServerTimeout e then true
      else if IsTooManyRequests e then true
      else if IsInternalError e then true
      else if IsServiceUnavailable e then true
      else false
  end.

(** A call [fn()] of the retried closure. *)
Definition call (fn : X -> option (error Cause) * X) : M World (option (error Cause)) :=
  fun w => let (r, h) := fn (heap w) in
           (r, mkWorld h (selects w) (EvCall r :: trace w)).

(** The [select] between [ctx.Done()] and [time.After(backoff)]; the result
    tells whether the context won. *)
Definition select (ctx : Context) (backoff : Duration) : M World bool :=
  fun w => let done := select_Done ctx (selects w) backoff in
           (done, mkWorld (heap w) (S (selects w)) (EvSelect backoff done :: trace w)).

(** The growth of the backoff after a wait. *)
Definition grow (cfg : RetryConfig) (backoff : Duration) : Duration :=
  let backoff := Duration_of_float (inject_Z backoff * Multiplier cfg)%Q in
  if MaxBackoff cfg <? backoff then MaxBackoff cfg else backoff.

(** The statement after the loop. *)
Definition exceeded (cfg : RetryConfig) (lastErr : option (error Cause)) : error Cause :=
  Errorf_w Cause_Error ("max retries (" +:+ fmt_d (MaxRetries cfg) +:+ ") exceeded: ") lastErr.

(** The [for] loop, from the test of its condition on.  [fuel] bounds the
    number of iterations; [None] means that the bound was too small. *)
Fixpoint retry_loop (fuel : nat) (ctx : Context) (cfg : RetryConfig)
    (fn : X -> option (error Cause) * X)
    (attempt : Z) (backoff : Duration) (lastErr : option (error Cause))
    (w : World) : option (option (error Cause) * World) :=
  match fuel with
  | O => None
  | S fuel =>
      if attempt <=? MaxRetries cfg then
        let (err, w) := call fn w in
        match err with
        | None => Some (None, w)
        | Some e =>
            if negb (isRetryable err) then
              Some (Some (Errorf_w Cause_Error "non-retryable error: " err), w)
            else if attempt =? MaxRetries cfg then
              Some (Some (exceeded cfg err), w)
            else
              let (done, w) := select ctx backoff w in
              if done then
                Some (Some (Errorf_w Cause_Error
                              ("context cancelled after " +:+ fmt_d (attempt + 1)
                               +:+ " attempts: ")
                              (Some (ctx_Err ctx))), w)
              else
                retry_loop fuel ctx cfg fn (attempt + 1) (grow cfg backoff) err w
        end
      else Some (Some (exceeded cfg lastErr), w)
  end.

(** The configuration a call runs with: [nil] stands for the defaults. *)
Definition effective (cfg : option RetryConfig) : RetryConfig :=
  match cfg with
  | Some c => c
  | None => DefaultRetryConfig
  end.

(** [func RetryWithBackoff(ctx, cfg, fn) error] *)
Definition RetryWithBackoff (ctx : Context) (cfg : option RetryConfig)
    (fn : X -> option (error Cause) * X) (w : World)
    : option (option (error Cause) * World) :=
  let cfg := effective cfg in
  retry_loop (S (Z.to_nat (MaxRetries cfg + 1))) ctx cfg fn 0 (InitialBackoff cfg) None w.

(** The number of calls of the closure in a trace. *)
Fixpoint invocations (tr : list Event) : nat :=
  match tr with
  | [] => 0
  | EvCall _ :: tr => S (invocations tr)
  | EvSelect _ _ :: tr => invocations tr
  end.

(** Every [select] in the trace comes directly after a call of the closure
    that failed with a retryable error. *)
Fixpoint selects_guarded (tr : list Event) : bool :=
  match tr with
  | [] => true
  | EvCall _ :: tr => selects_guarded tr
  | EvSelect _ _ :: tr =>
      match tr with
      | EvCall (Some e) :: _ => isRetryable (Some e) && selects_guarded tr
      | _ => false
      end
  end.

End RetryWithBackoff.

Arguments RetryConfig : clear implicits.
Arguments Context : clear implicits.
Arguments Event : clear implicits.
Arguments World : clear implicits.

Section WithRetry.
(** [T] is the result type of the wrapped operation and [zero] its zero
    value; [X] is the state the operation captures, the client included. *)
Context {Cause X T : Type}.
Variable Cause_Error : Cause -> string.
Variables IsTimeout IsServerTimeout IsTooManyRequests IsInternalError
          IsServiceUnavailable : error Cause -> bool.
Variable zero : T.

(** The closure that [WithRetry] hands to [RetryWithBackoff]: it runs [fn]
    and assigns the variables [result] and [resultErr], which are kept here
    beside the state of [fn]. *)
Definition assigning (fn : X -> (T * option (error Cause)) * X)
    (s : X * (T * option (error Cause)))
    : option (error Cause) * (X * (T * option (error Cause))) :=
  let (r, x) := fn (fst s) in
  (snd r, (x, (fst r, snd r))).

(** [func WithRetry[T any](ctx, client, fn) (T, error)] *)
Definition WithRetry (ctx : Context Cause)
    (fn : X -> (T * option (error Cause)) * X) (w : World Cause X)
    : option ((T * option (error Cause)) * World Cause X) :=
  let w0 := mkWorld (heap w, (zero, None)) (selects w) (trace w) in
  match RetryWithBackoff Cause_Error IsTimeout IsServerTimeout IsTooManyRequests
          IsInternalError IsServiceUnavailable ctx (Some DefaultRetryConfig)
          (assigning fn) w0 with
  | None => None
  | Some (err, w1) =>
      let result := fst (snd (heap w1)) in
      let resultErr := snd (snd (heap w1)) in
      let w' := mkWorld (fst (heap w1)) (selects w1) (trace w1) in
      match err with
      | Some e => Some ((result, Some e), w')
      | None => Some ((result, resultErr), w')
      end
  end.

End WithRetry.

End Retry.

(* ===================================================================== *)
(** * Properties                                                         *)
(* ===================================================================== *)

Lemma int64_add_exact (x y : Z) : in_int64 (x + y) -> int64_add x y = x + y.
Proof.
  unfold in_int64, int64_min, int64_max, int64_add, wrap64. intros H.
  rewrite Z.mod_small by lia. lia.
Qed.

(** ** The cache *)

Section CacheFacts.
Import Cache.
Context {V X Err : Type}.
Implicit Types (w : World V X) (key : string) (entry : CacheEntry V).

Local Ltac run_go :=
  cbv [Get IsExpired Delete SetWithTTL Set_ GetStatistics GetOrSet GetOrSetWithTTL
       invoke time_Now bind ret gets modify set_stats set_data
       incr_hits incr_misses add_evictions]; cbn.

Lemma Get_absent key w :
  data (cache w) !! key = None ->
  Get key w = ((None, false), set_stats incr_misses w).
Proof. intros H. run_go. rewrite H. reflexivity. Qed.

Lemma Get_present key w entry :
  data (cache w) !! key = Some entry ->
  Get key w =
    let w1 := mkWorld (cache w) (clock_tick (clock w)) (heap w) (compute_calls w) in
    if Time_After (clock_read (clock w)) (Expiration entry)
    then ((None, false), set_stats incr_misses w1)
    else ((Value entry, true), set_stats incr_hits w1).
Proof.
  intros H. run_go. rewrite H. cbn.
  destruct (Time_After _ _); reflexivity.
Qed.

(** [Get] never changes the stored entries, the captured state of the
    closures, or the count of closure calls. *)
Lemma Get_frame key w :
  data (cache (snd (Get key w))) = data (cache w) /\
  defaultTTL (cache (snd (Get key w))) = defaultTTL (cache w) /\
  heap (snd (Get key w)) = heap w /\
  compute_calls (snd (Get key w)) = compute_calls w.
Proof.
  destruct (data (cache w) !! key) as [entry|] eqn:H.
  - rewrite (Get_present _ _ _ H). cbn. destruct (Time_After _ _); cbn; auto.
  - rewrite (Get_absent _ _ H). cbn. auto.
Qed.

(** C4.  A [Get] of a key whose entry is stored but expired (the clock
    reads later than the entry's expiration) reports [found = false],
    counts one miss, leaves the hit and eviction counters alone, and leaves
    the entry in the store. *)
Theorem Get_expired_entry_is_a_miss key w entry :
  data (cache w) !! key = Some entry ->
  Expiration entry < clock_read (clock w) ->
  int64_min <= misses (stats (cache w)) < int64_max ->
  exists w',
    Get key w = ((None, false), w') /\
    misses (stats (cache w')) = misses (stats (cache w)) + 1 /\
    hits (stats (cache w')) = hits (stats (cache w)) /\
    evictions (stats (cache w')) = evictions (stats (cache w)) /\
    data (cache w') = data (cache w) /\
    data (cache w') !! key = Some entry.
Proof.
  intros Hin Hexp Hrange.
  rewrite (Get_present _ _ _ Hin). cbn.
  assert (Time_After (clock_read (clock w)) (Expiration entry) = true) as ->
    by (unfold Time_After; lia).
  eexists. split; [reflexivity|]. cbn.
  rewrite int64_add_exact by (unfold in_int64, int64_min, int64_max in *; lia).
  auto.
Qed.

(** [Delete] of a key that is not stored changes nothing. *)
Lemma Delete_absent key w :
  data (cache w) !! key = None -> Delete key w = (tt, w).
Proof. intros H. run_go. rewrite H. destruct w as [[d t s] k h n]. reflexivity. Qed.

Lemma Delete_present key w entry :
  data (cache w) !! key = Some entry ->
  Delete key w = (tt, set_stats (add_evictions 1) (set_data (delete key) w)).
Proof. intros H. run_go. rewrite H. reflexivity. Qed.

(** C2, as amended.  [Delete] has no result.  On a key that is not stored it
    leaves the whole cache, the eviction counter included, as it was; on a
    stored key it removes the entry and adds exactly one eviction. *)
Theorem Delete_counts_one_eviction key w :
  int64_min <= evictions (stats (cache w)) < int64_max ->
  (data (cache w) !! key = None -> Delete key w = (tt, w)) /\
  (forall entry, data (cache w) !! key = Some entry ->
     exists w',
       Delete key w = (tt, w') /\
       data (cache w') = delete key (data (cache w)) /\
       data (cache w') !! key = None /\
       evictions (stats (cache w')) = evictions (stats (cache w)) + 1 /\
       hits (stats (cache w')) = hits (stats (cache w)) /\
       misses (stats (cache w')) = misses (stats (cache w))).
Proof.
  intros Hrange. split.
  - apply Delete_absent.
  - intros entry Hin. rewrite (Delete_present _ _ _ Hin).
    eexists. split; [reflexivity|]. cbn.
    rewrite int64_add_exact by (unfold in_int64, int64_min, int64_max in *; lia).
    rewrite lookup_delete_eq. auto.
Qed.

(** C1, as amended.  [GetStatistics] reports the counters as they are and
    the hit rate as a percentage: 100 * hits / (hits + misses), and 0 when
    there has been no lookup.  The call changes nothing. *)
Theorem GetStatistics_hit_rate_is_a_percentage w :
  0 <= hits (stats (cache w)) ->
  0 <= misses (stats (cache w)) ->
  hits (stats (cache w)) + misses (stats (cache w)) <= int64_max ->
  let h := hits (stats (cache w)) in
  let m := misses (stats (cache w)) in
  let r := fst (GetStatistics w) in
  snd (GetStatistics w) = w /\
  Hits r = h /\ Misses r = m /\
  Evictions r = evictions (stats (cache w)) /\
  Entries r = Z.of_nat (size (data (cache w))) /\
  (h + m = 0 -> (HitRate r == 0)%Q) /\
  (0 < h + m -> (HitRate r == 100 * (inject_Z h / inject_Z (h + m)))%Q).
Proof.
  intros Hh Hm Hsum. run_go.
  rewrite int64_add_exact by (unfold in_int64, int64_min, int64_max in *; lia).
  repeat split; try reflexivity.
  - intros H0. rewrite H0. reflexivity.
  - intros Hpos. destruct (Z.ltb_spec 0 (hits (stats (cache w)) + misses (stats (cache w)))) as [_|?]; [|lia].
    ring.
Qed.

(** What the specification asks of a lazy-loading lookup [op] for [key]
    that stores with the time to live [ttl_of w]:
    - on a hit the cached value is returned and [compute] is not called;
    - on a miss [compute] is called once; when it fails, its error is
      returned and the stored entries are those of before;
    - when it succeeds, its value is stored under [key], expiring [ttl_of w]
      after the clock reading of the store, and returned. *)
Definition lazy_load_contract key (ttl_of : World V X -> Duration)
    (op : (X -> (option V * option Err) * X) -> M (World V X) (option V * option Err))
    : Prop :=
  forall (compute : X -> (option V * option Err) * X) w,
    (forall v w1,
       Get key w = ((v, true), w1) ->
       op compute w = ((v, None), w1) /\
       compute_calls w1 = compute_calls w /\ heap w1 = heap w) /\
    (forall v w1 val err h,
       Get key w = ((v, false), w1) ->
       compute (heap w) = ((val, Some err), h) ->
       exists w2,
         op compute w = ((None, Some err), w2) /\
         data (cache w2) = data (cache w) /\
         compute_calls w2 = S (compute_calls w) /\ heap w2 = h) /\
    (forall v w1 val h,
       Get key w = ((v, false), w1) ->
       compute (heap w) = ((val, None), h) ->
       exists w2,
         op compute w = ((val, None), w2) /\
         data (cache w2) =
           <[key := mkEntry val (clock_read (clock w1) + ttl_of w)]> (data (cache w)) /\
         data (cache w2) !! key = Some (mkEntry val (clock_read (clock w1) + ttl_of w)) /\
         compute_calls w2 = S (compute_calls w) /\ heap w2 = h).

Lemma GetOrSetWithTTL_contract key (ttl : Duration) :
  lazy_load_contract key (fun _ => ttl) (GetOrSetWithTTL key ttl).
Proof.
  intros compute w.
  pose proof (Get_frame key w) as (Hd & Ht & Hh & Hc).
  destruct (Get key w) as [[v0 found] w0] eqn:HG0; cbn [fst snd] in *.
  split; [|split].
  - intros v w1 HG. injection HG as -> -> ->.
    unfold GetOrSetWithTTL; unfold bind at 1; rewrite HG0; cbn [fst snd]. auto.
  - intros v w1 val err h HG Hcomp. injection HG as -> -> ->.
    unfold GetOrSetWithTTL; unfold bind at 1; rewrite HG0; cbn [fst snd].
    unfold bind, invoke; cbn. rewrite Hh, Hcomp; cbn.
    eexists; split; [reflexivity|]; cbn. rewrite Hc; auto.
  - intros v w1 val h HG Hcomp. injection HG as -> -> ->.
    unfold GetOrSetWithTTL; unfold bind at 1; rewrite HG0; cbn [fst snd].
    cbv [Set_ SetWithTTL time_Now gets modify set_data bind invoke ret]; cbn.
    rewrite Hh, Hcomp; cbn.
    eexists; split; [reflexivity|]; cbn. rewrite Hc, Hd, ?Ht.
    rewrite lookup_insert_eq; auto.
Qed.

Lemma GetOrSet_contract key :
  lazy_load_contract key (fun w => defaultTTL (cache w)) (GetOrSet key).
Proof.
  intros compute w.
  pose proof (Get_frame key w) as (Hd & Ht & Hh & Hc).
  destruct (Get key w) as [[v0 found] w0] eqn:HG0; cbn [fst snd] in *.
  split; [|split].
  - intros v w1 HG. injection HG as -> -> ->.
    unfold GetOrSet; unfold bind at 1; rewrite HG0; cbn [fst snd]. auto.
  - intros v w1 val err h HG Hcomp. injection HG as -> -> ->.
    unfold GetOrSet; unfold bind at 1; rewrite HG0; cbn [fst snd].
    unfold bind, invoke; cbn. rewrite Hh, Hcomp; cbn.
    eexists; split; [reflexivity|]; cbn. rewrite Hc; auto.
  - intros v w1 val h HG Hcomp. injection HG as -> -> ->.
    unfold GetOrSet; unfold bind at 1; rewrite HG0; cbn [fst snd].
    cbv [Set_ SetWithTTL time_Now gets modify set_data bind invoke ret]; cbn.
    rewrite Hh, Hcomp; cbn.
    eexists; split; [reflexivity|]; cbn. rewrite Hc, Hd, ?Ht.
    rewrite lookup_insert_eq; auto.
Qed.

(** C6.  [GetOrSet] and [GetOrSetWithTTL] meet the lazy-loading contract:
    a hit returns the cached value without calling [compute]; on a miss
    [compute] is called, its error is passed on with the entries
    unchanged, and its value is stored under the key before it is
    returned. *)
Theorem GetOrSet_lazy_loading key (ttl : Duration) :
  lazy_load_contract key (fun w => defaultTTL (cache w)) (GetOrSet key) /\
  lazy_load_contract key (fun _ => ttl) (GetOrSetWithTTL key ttl).
Proof. split; [apply GetOrSet_contract | apply GetOrSetWithTTL_contract]. Qed.

End CacheFacts.

(** *** The cache on concrete states *)

(** A clock that reads 100, 101, 102, ... *)
Definition clock_from_100 : Clock := mkClock (fun n => 100 + Z.of_nat n) 0.

(** An empty cache that has seen one hit and one miss. *)
Definition one_hit_one_miss : Cache.World nat unit :=
  Cache.mkWorld (Cache.mkCache ∅ Minute (Cache.mkStats 1 1 0)) clock_from_100 tt 0.

(** A fresh cache. *)
Definition fresh_cache : Cache.World nat unit :=
  Cache.mkWorld (Cache.NewMemoryCache Minute) clock_from_100 tt 0.

(** A cache that holds 1 under "a", expired since instant 50. *)
Definition stale_a : Cache.World nat unit :=
  Cache.mkWorld
    (Cache.mkCache {[ "a"%string := Cache.mkEntry (Some 1%nat) 50 ]} Minute
                   (Cache.mkStats 0 0 0))
    clock_from_100 tt 0.

(** A cache that holds 1 under "a", good until instant 200. *)
Definition live_a : Cache.World nat unit :=
  Cache.mkWorld
    (Cache.mkCache {[ "a"%string := Cache.mkEntry (Some 1%nat) 200 ]} Minute
                   (Cache.mkStats 0 0 0))
    clock_from_100 tt 0.

Definition compute_7 (x : unit) : (option nat * option string) * unit :=
  ((Some 7%nat, None), x).

Definition compute_fails (x : unit) : (option nat * option string) * unit :=
  ((None, Some "upstream down"%string), x).

(** After one hit and one miss the reported hit rate is 50, not 1/2: the rate
    is not hits / (hits + misses). *)
Lemma GetStatistics_hit_rate_is_not_a_fraction :
  let s := Cache.stats (Cache.cache one_hit_one_miss) in
  let r := fst (Cache.GetStatistics one_hit_one_miss) in
  (Cache.HitRate r == 50)%Q /\
  ~ (Cache.HitRate r ==
       inject_Z (Cache.hits s) / inject_Z (Cache.hits s + Cache.misses s))%Q.
Proof. cbn. split; [reflexivity | discriminate]. Qed.

Lemma GetStatistics_hit_rate_witness :
  (Cache.HitRate (fst (Cache.GetStatistics one_hit_one_miss))
   == 100 * (inject_Z 1 / inject_Z (1 + 1)))%Q.
Proof.
  apply (GetStatistics_hit_rate_is_a_percentage one_hit_one_miss);
    cbn; unfold int64_max; lia.
Defined.

(** What [Delete] returns is the same for a key that is stored and for one
    that is not: no result of the call tells the two apart. *)
Lemma Delete_returns_no_flag :
  ~ exists as_bool : unit -> bool,
      as_bool (fst (Cache.Delete "a" fresh_cache)) = false /\
      as_bool (fst (Cache.Delete "a" live_a)) = true.
Proof.
  intros (as_bool & Habsent & Hpresent).
  destruct (fst (Cache.Delete "a" fresh_cache)), (fst (Cache.Delete "a" live_a)).
  congruence.
Qed.

Lemma Delete_counts_one_eviction_witness :
  Cache.Delete "a" fresh_cache = (tt, fresh_cache) /\
  exists w',
    Cache.Delete "a" live_a = (tt, w') /\
    Cache.data (Cache.cache w') = delete "a"%string (Cache.data (Cache.cache live_a)) /\
    Cache.data (Cache.cache w') !! "a"%string = None /\
    Cache.evictions (Cache.stats (Cache.cache w')) = 0 + 1 /\
    Cache.hits (Cache.stats (Cache.cache w')) = 0 /\
    Cache.misses (Cache.stats (Cache.cache w')) = 0.
Proof.
  split.
  - apply (Delete_counts_one_eviction "a" fresh_cache); [vm_compute; intuition discriminate | reflexivity].
  - apply (Delete_counts_one_eviction "a" live_a) with (entry := Cache.mkEntry (Some 1%nat) 200);
      [vm_compute; intuition discriminate | reflexivity].
Defined.

Lemma Get_expired_entry_is_a_miss_witness :
  exists w',
    Cache.Get "a" stale_a = ((None, false), w') /\
    Cache.misses (Cache.stats (Cache.cache w')) = 0 + 1 /\
    Cache.hits (Cache.stats (Cache.cache w')) = 0 /\
    Cache.evictions (Cache.stats (Cache.cache w')) = 0 /\
    Cache.data (Cache.cache w') = Cache.data (Cache.cache stale_a) /\
    Cache.data (Cache.cache w') !! "a"%string = Some (Cache.mkEntry (Some 1%nat) 50).
Proof.
  apply (Get_expired_entry_is_a_miss "a" stale_a (Cache.mkEntry (Some 1%nat) 50));
    [reflexivity | reflexivity | vm_compute; intuition discriminate].
Defined.

Lemma GetOrSet_lazy_loading_witness :
  (* a hit: the value is returned and [compute_fails] is never called *)
  (Cache.GetOrSet "a" compute_fails live_a
     = ((Some 1%nat, None), snd (Cache.Get "a" live_a)) /\
   Cache.compute_calls (snd (Cache.Get "a" live_a)) = 0%nat /\
   Cache.heap (snd (Cache.Get "a" live_a)) = tt) /\
  (* a miss and a failing [compute]: nothing is stored *)
  (exists w2,
     Cache.GetOrSetWithTTL "a" Second compute_fails stale_a
       = ((None, Some "upstream down"%string), w2) /\
     Cache.data (Cache.cache w2) = Cache.data (Cache.cache stale_a) /\
     Cache.compute_calls w2 = 1%nat /\ Cache.heap w2 = tt) /\
  (* a miss and a successful [compute]: the value is stored and returned *)
  (exists w2,
     Cache.GetOrSet "b" compute_7 live_a = ((Some 7%nat, None), w2) /\
     Cache.data (Cache.cache w2) =
       <["b"%string := Cache.mkEntry (Some 7%nat) (100 + Minute)]>
         (Cache.data (Cache.cache live_a)) /\
     Cache.data (Cache.cache w2) !! "b"%string
       = Some (Cache.mkEntry (Some 7%nat) (100 + Minute)) /\
     Cache.compute_calls w2 = 1%nat /\ Cache.heap w2 = tt).
Proof.
  split; [|split].
  - destruct (GetOrSet_lazy_loading (V := nat) (X := unit) (Err := string) "a" Second)
      as [Hdefault _].
    destruct (Hdefault compute_fails live_a) as (Hhit & _ & _).
    apply Hhit. reflexivity.
  - destruct (GetOrSet_lazy_loading (V := nat) (X := unit) (Err := string) "a" Second)
      as [_ Hcustom].
    destruct (Hcustom compute_fails stale_a) as (_ & Hfail & _).
    apply (Hfail None (snd (Cache.Get "a" stale_a)) None); reflexivity.
  - destruct (GetOrSet_lazy_loading (V := nat) (X := unit) (Err := string) "b" Second)
      as [Hdefault _].
    destruct (Hdefault compute_7 live_a) as (_ & _ & Hstore).
    apply (Hstore None (snd (Cache.Get "b" live_a))); reflexivity.
Defined.

(** ** The session manager *)

Section SessionFacts.
Import Session.
Context {Meta Cause : Type}.
Variable Cause_Error : Cause -> string.
Implicit Types (w : World Meta Cause) (id : string) (s : Session Meta).

Local Ltac run_go :=
  cbv [TouchSession DeleteSession GetSession cleanupExpiredLocked cleanupExpired
       len_sessions time_Now bind ret gets modify set_sessions]; cbn.

(** The sessions that [cleanupExpiredLocked] keeps when the clock reads [now]. *)
Definition kept (now : Time) (m : gmap string (Session Meta)) : gmap string (Session Meta) :=
  filter (fun kv : string * Session Meta => expired_at now kv.2 = false) m.

(** The sweep removes the expired sessions, all of them and nothing else. *)
Lemma kept_lookup now m id s :
  kept now m !! id = Some s <-> m !! id = Some s /\ ~ ExpiresAt s < now.
Proof.
  unfold kept. rewrite map_lookup_filter_Some. cbn.
  unfold expired_at, Time_After. rewrite Z.ltb_nlt. reflexivity.
Qed.

Lemma cleanupExpiredLocked_run w :
  cleanupExpiredLocked w =
    (tt, set_sessions (kept (clock_read (clock w)))
           (mkWorld (sm w) (clock_tick (clock w)) (entropy w))).
Proof. reflexivity. Qed.

Lemma TouchSession_unknown id w :
  sessions (sm w) !! id = None -> TouchSession id w = (false, w).
Proof. intros H. run_go. rewrite H. reflexivity. Qed.

Lemma TouchSession_expired id w s :
  sessions (sm w) !! id = Some s ->
  ExpiresAt s < clock_read (clock w) ->
  TouchSession id w =
    (false, set_sessions (delete id) (mkWorld (sm w) (clock_tick (clock w)) (entropy w))).
Proof.
  intros H Hexp. run_go. rewrite H. cbn.
  assert (Time_After (clock_read (clock w)) (ExpiresAt s) = true) as ->
    by (unfold Time_After; lia).
  reflexivity.
Qed.

(** A touch of a live session: [LastUsed] is the second clock reading of
    the call and [ExpiresAt] is the third one plus the time to live. *)
Lemma TouchSession_live id w s :
  sessions (sm w) !! id = Some s ->
  clock_read (clock w) <= ExpiresAt s ->
  let used := readings (clock w) (S (ticks (clock w))) in
  let now' := readings (clock w) (S (S (ticks (clock w)))) in
  let s' := mkSession (ID s) (CreatedAt s) (now' + ttl (sm w)) used (Metadata s) in
  TouchSession id w =
    (true, set_sessions (fun m => <[id := s']> m)
             (mkWorld (sm w) (clock_tick (clock_tick (clock_tick (clock w)))) (entropy w))).
Proof.
  intros H Hlive. run_go. rewrite H. cbn.
  assert (Time_After (clock_read (clock w)) (ExpiresAt s) = false) as ->
    by (unfold Time_After; lia).
  reflexivity.
Qed.

(** When the clock does not advance between the last two readings of a
    touch, the touched session expires one time to live after its last use. *)
Lemma TouchSession_live_steady_clock id w s :
  sessions (sm w) !! id = Some s ->
  clock_read (clock w) <= ExpiresAt s ->
  readings (clock w) (S (S (ticks (clock w)))) = readings (clock w) (S (ticks (clock w))) ->
  exists w' s',
    TouchSession id w = (true, w') /\
    sessions (sm w') !! id = Some s' /\
    ExpiresAt s' = LastUsed s' + ttl (sm w').
Proof.
  intros H Hlive Hsteady. rewrite (TouchSession_live _ _ _ H Hlive).
  eexists _, _. split; [reflexivity|]. cbn.
  rewrite lookup_insert_eq. split; [reflexivity|]. cbn. rewrite Hsteady. reflexivity.
Qed.

(** Under a clock that never runs backwards a touched session expires no
    earlier than one time to live after its last use. *)
Lemma TouchSession_live_monotone_clock id w s :
  sessions (sm w) !! id = Some s ->
  clock_read (clock w) <= ExpiresAt s ->
  monotone (clock w) ->
  exists w' s',
    TouchSession id w = (true, w') /\
    sessions (sm w') !! id = Some s' /\
    LastUsed s' + ttl (sm w') <= ExpiresAt s'.
Proof.
  intros H Hlive Hmono. rewrite (TouchSession_live _ _ _ H Hlive).
  eexists _, _. split; [reflexivity|]. cbn.
  rewrite lookup_insert_eq. split; [reflexivity|]. cbn.
  specialize (Hmono (S (ticks (clock w)))). lia.
Qed.

(** No method changes the configured time to live or the session limit. *)
Lemma TouchSession_keeps_config id w :
  ttl (sm (snd (TouchSession id w))) = ttl (sm w) /\
  maxSessons (sm (snd (TouchSession id w))) = maxSessons (sm w).
Proof.
  run_go. destruct (sessions (sm w) !! id) as [s|]; cbn; [|auto].
  destruct (Time_After _ _); cbn; auto.
Qed.

Lemma DeleteSession_keeps_config id w :
  ttl (sm (snd (DeleteSession id w))) = ttl (sm w) /\
  maxSessons (sm (snd (DeleteSession id w))) = maxSessons (sm w).
Proof. run_go. destruct (sessions (sm w) !! id) as [s|]; cbn; auto. Qed.

(** *** [CreateSession] path by path *)

Local Ltac enter_sweep Hfull :=
  unfold CreateSession; unfold bind at 1; unfold len_sessions at 1, gets at 1;
  unfold bind at 1; unfold gets at 1; unfold bind at 1;
  rewrite (proj2 (Z.leb_le _ _) Hfull);
  unfold bind at 1; rewrite cleanupExpiredLocked_run;
  unfold bind at 1, len_sessions, gets, ret; cbn [sm sessions set_sessions].

Local Ltac issue_id Hsource :=
  cbv [generateSessionID rand_Read bind ret time_Now gets modify set_sessions];
  cbn [sm sessions ttl maxSessons clock entropy source draws];
  rewrite Hsource; reflexivity.

(** The world after the inline sweep of a call made in [w]. *)
Definition swept w : World Meta Cause :=
  set_sessions (kept (clock_read (clock w)))
    (mkWorld (sm w) (clock_tick (clock w)) (entropy w)).

(** The session a call made in [w] creates, after [reads] earlier clock
    readings of the same call, from the bytes of [gen]. *)
Definition fresh_session (reads : nat) (gen : nat -> byte) (metadata : Meta) w
    : Session Meta :=
  let now := readings (clock w) (reads + ticks (clock w)) in
  mkSession (EncodeToString (map gen (seq 0 16))) now (now + ttl (sm w)) now metadata.

Definition entropy_used w : Entropy Cause :=
  mkEntropy (source (entropy w)) (S (draws (entropy w))).

Lemma CreateSession_full metadata w :
  maxSessons (sm w) <= Z.of_nat (size (sessions (sm w))) ->
  maxSessons (sm w) <= Z.of_nat (size (sessions (sm (swept w)))) ->
  CreateSession Cause_Error metadata w =
    ((None, Some (capacity_error (maxSessons (sm w)))), swept w).
Proof.
  intros Hfull Hstill. enter_sweep Hfull.
  cbn in Hstill. rewrite (proj2 (Z.leb_le _ _) Hstill). reflexivity.
Qed.

Lemma CreateSession_swept_room metadata w gen :
  maxSessons (sm w) <= Z.of_nat (size (sessions (sm w))) ->
  Z.of_nat (size (sessions (sm (swept w)))) < maxSessons (sm w) ->
  source (entropy w) (draws (entropy w)) = inl gen ->
  let s := fresh_session 1 gen metadata w in
  CreateSession Cause_Error metadata w =
    ((Some s, None),
     mkWorld (mkManager (<[ID s := s]> (sessions (sm (swept w))))
                        (ttl (sm w)) (maxSessons (sm w)))
             (clock_tick (clock_tick (clock w))) (entropy_used w)).
Proof.
  intros Hfull Hroom Hgen. enter_sweep Hfull.
  cbn in Hroom. rewrite (proj2 (Z.leb_gt _ _) Hroom).
  issue_id Hgen.
Qed.

Lemma CreateSession_swept_no_id metadata w c :
  maxSessons (sm w) <= Z.of_nat (size (sessions (sm w))) ->
  Z.of_nat (size (sessions (sm (swept w)))) < maxSessons (sm w) ->
  source (entropy w) (draws (entropy w)) = inr c ->
  CreateSession Cause_Error metadata w =
    ((None, Some (wrapError ("failed to generate session ID: " +:+ Cause_Error c)
                            (foreignError c))),
     mkWorld (sm (swept w)) (clock_tick (clock w)) (entropy_used w)).
Proof.
  intros Hfull Hroom Hfail. enter_sweep Hfull.
  cbn in Hroom. rewrite (proj2 (Z.leb_gt _ _) Hroom).
  issue_id Hfail.
Qed.

(** Below the limit there is no sweep. *)
Lemma CreateSession_room metadata w gen :
  Z.of_nat (size (sessions (sm w))) < maxSessons (sm w) ->
  source (entropy w) (draws (entropy w)) = inl gen ->
  let s := fresh_session 0 gen metadata w in
  CreateSession Cause_Error metadata w =
    ((Some s, None),
     mkWorld (mkManager (<[ID s := s]> (sessions (sm w))) (ttl (sm w)) (maxSessons (sm w)))
             (clock_tick (clock w)) (entropy_used w)).
Proof.
  intros Hroom Hgen.
  unfold CreateSession; unfold bind at 1; unfold len_sessions at 1, gets at 1;
  unfold bind at 1; unfold gets at 1; unfold bind at 1.
  rewrite (proj2 (Z.leb_gt _ _) Hroom). unfold ret at 1.
  issue_id Hgen.
Qed.

(** C5, as amended.  When the number of stored sessions has reached the
    limit, [CreateSession] first removes every expired session.  If the
    limit is still reached, it returns the capacity error and stores
    nothing.  Otherwise it asks for an identifier: when the entropy source
    fails it returns an error that wraps that failure and stores nothing;
    when it succeeds it stores and returns a new session, created and last
    used now and expiring one time to live from now. *)
Theorem CreateSession_at_capacity metadata w :
  maxSessons (sm w) <= Z.of_nat (size (sessions (sm w))) ->
  let now0 := clock_read (clock w) in
  let after_sweep := sessions (sm (swept w)) in
  (forall id s,
     after_sweep !! id = Some s <-> sessions (sm w) !! id = Some s /\ ~ ExpiresAt s < now0) /\
  (maxSessons (sm w) <= Z.of_nat (size after_sweep) ->
     exists w',
       CreateSession Cause_Error metadata w =
         ((None, Some (capacity_error (maxSessons (sm w)))), w') /\
       sessions (sm w') = after_sweep) /\
  (Z.of_nat (size after_sweep) < maxSessons (sm w) ->
     (forall c,
        source (entropy w) (draws (entropy w)) = inr c ->
        exists w',
          CreateSession Cause_Error metadata w =
            ((None, Some (wrapError ("failed to generate session ID: " +:+ Cause_Error c)
                                    (foreignError c))), w') /\
          sessions (sm w') = after_sweep) /\
     (forall gen,
        source (entropy w) (draws (entropy w)) = inl gen ->
        exists w' s now,
          CreateSession Cause_Error metadata w = ((Some s, None), w') /\
          now = readings (clock w) (S (ticks (clock w))) /\
          ID s = EncodeToString (map gen (seq 0 16)) /\
          Metadata s = metadata /\
          CreatedAt s = now /\ LastUsed s = now /\
          ExpiresAt s = now + ttl (sm w) /\
          sessions (sm w') = <[ID s := s]> after_sweep /\
          sessions (sm w') !! ID s = Some s)).
Proof.
  intros Hfull now0 after_sweep. split; [|split].
  - intros id s. apply kept_lookup.
  - intros Hstill. eexists. split; [apply CreateSession_full; assumption|]. reflexivity.
  - intros Hroom. split.
    + intros c Hc. eexists. split; [apply CreateSession_swept_no_id; assumption|]. reflexivity.
    + intros gen Hgen. eexists _, _, _.
      split; [apply CreateSession_swept_room; eassumption|].
      cbn. rewrite lookup_insert_eq. repeat split; reflexivity.
Qed.

(** A manager whose limit is negative refuses every session. *)
Lemma CreateSession_negative_limit metadata w :
  maxSessons (sm w) < 0 ->
  CreateSession Cause_Error metadata w =
    ((None, Some (capacity_error (maxSessons (sm w)))), swept w).
Proof. intros Hneg. apply CreateSession_full; lia. Qed.

Lemma CreateSession_room_no_id metadata w c :
  Z.of_nat (size (sessions (sm w))) < maxSessons (sm w) ->
  source (entropy w) (draws (entropy w)) = inr c ->
  CreateSession Cause_Error metadata w =
    ((None, Some (wrapError ("failed to generate session ID: " +:+ Cause_Error c)
                            (foreignError c))),
     mkWorld (sm w) (clock w) (entropy_used w)).
Proof.
  intros Hroom Hfail.
  unfold CreateSession; unfold bind at 1; unfold len_sessions at 1, gets at 1;
  unfold bind at 1; unfold gets at 1; unfold bind at 1.
  rewrite (proj2 (Z.leb_gt _ _) Hroom). unfold ret at 1.
  issue_id Hfail.
Qed.

Lemma CreateSession_keeps_config metadata w :
  ttl (sm (snd (CreateSession Cause_Error metadata w))) = ttl (sm w) /\
  maxSessons (sm (snd (CreateSession Cause_Error metadata w))) = maxSessons (sm w).
Proof.
  destruct (Z.le_gt_cases (maxSessons (sm w)) (Z.of_nat (size (sessions (sm w)))))
    as [Hfull|Hroom].
  - destruct (Z.le_gt_cases (maxSessons (sm w)) (Z.of_nat (size (sessions (sm (swept w))))))
      as [Hstill|Hfreed].
    + rewrite CreateSession_full by assumption. cbn. auto.
    + destruct (source (entropy w) (draws (entropy w))) as [gen|c] eqn:Hsrc.
      * rewrite (CreateSession_swept_room _ _ _ Hfull Hfreed Hsrc). cbn. auto.
      * rewrite (CreateSession_swept_no_id _ _ _ Hfull Hfreed Hsrc). cbn. auto.
  - destruct (source (entropy w) (draws (entropy w))) as [gen|c] eqn:Hsrc.
    + rewrite (CreateSession_room _ _ _ Hroom Hsrc). cbn. auto.
    + rewrite (CreateSession_room_no_id _ _ _ Hroom Hsrc). cbn. auto.
Qed.

(** C9.  [NewSessionManager] replaces a time to live of exactly 0 by 30
    minutes and a limit of exactly 0 by 1000, and keeps any other value,
    negative ones included; the manager starts empty.  With a negative
    limit every [CreateSession] fails with the capacity error, in whatever
    state the manager is. *)
Theorem NewSessionManager_defaults (sessionTTL : Duration) (maxSessions : Z) :
  let m := NewSessionManager (Meta := Meta) sessionTTL maxSessions in
  sessions m = ∅ /\
  (sessionTTL = 0 -> ttl m = 30 * Minute) /\
  (maxSessions = 0 -> maxSessons m = 1000) /\
  (sessionTTL <> 0 -> ttl m = sessionTTL) /\
  (maxSessions <> 0 -> maxSessons m = maxSessions) /\
  (maxSessions < 0 ->
     forall metadata w,
       maxSessons (sm w) = maxSessons m ->
       exists w',
         CreateSession Cause_Error metadata w =
           ((None, Some (capacity_error maxSessions)), w') /\
         sessions (sm w') ⊆ sessions (sm w) /\
         maxSessons (sm w') = maxSessons m).
Proof.
  cbn. unfold NewSessionManager.
  repeat split; cbn.
  - intros ->. reflexivity.
  - intros ->. reflexivity.
  - intros H. destruct (Z.eqb_spec sessionTTL 0); [contradiction | reflexivity].
  - intros H. destruct (Z.eqb_spec maxSessions 0); [contradiction | reflexivity].
  - intros Hneg metadata w Hmax.
    destruct (Z.eqb_spec maxSessions 0) as [|_]; [lia|].
    eexists. split; [|split].
    + rewrite <- Hmax. apply CreateSession_negative_limit. lia.
    + cbn. apply map_filter_subseteq.
    + cbn. assumption.
Qed.

End SessionFacts.

(** *** The session manager on concrete states *)

(** A session that expired at instant 50 and one that is good until 590. *)
Definition gone_session : Session.Session unit := Session.mkSession "s1" 0 50 0 tt.
Definition live_session : Session.Session unit := Session.mkSession "s1" 90 590 90 tt.

Definition zero_bytes : Session.Entropy string :=
  Session.mkEntropy (fun _ => inl (fun _ => x00)) 0.
Definition no_entropy : Session.Entropy string :=
  Session.mkEntropy (fun _ => inr "no entropy"%string) 0.

(** A manager with a time to live of 500ns that holds the live session. *)
Definition touch_world : Session.World unit string :=
  Session.mkWorld
    (Session.mkManager {[ "s1"%string := live_session ]} 500 10)
    clock_from_100 zero_bytes.

(** A manager at its limit of one session, the one it holds being expired. *)
Definition full_of_gone (e : Session.Entropy string) : Session.World unit string :=
  Session.mkWorld
    (Session.mkManager {[ "s1"%string := gone_session ]} 500 1)
    clock_from_100 e.

(** C3 at a failing input.  The clock reads 100, 101 and 102 during the
    touch of a live session with a time to live of 500: the touch succeeds,
    [LastUsed] becomes 101 and [ExpiresAt] becomes 602, which is not
    [LastUsed] plus the time to live. *)
Theorem TouchSession_expiry_drifts_from_last_use :
  exists w' s',
    Session.TouchSession "s1" touch_world = (true, w') /\
    Session.sessions (Session.sm w') !! "s1"%string = Some s' /\
    Session.LastUsed s' = 101 /\
    Session.ExpiresAt s' = 602 /\
    Session.ExpiresAt s' <> Session.LastUsed s' + Session.ttl (Session.sm w').
Proof.
  exists (snd (Session.TouchSession "s1" touch_world)),
         (Session.mkSession "s1" 90 602 101 tt).
  vm_compute. repeat split; discriminate.
Qed.

(** With room after the sweep but a failing entropy source, [CreateSession]
    returns no session and stores none. *)
Lemma CreateSession_with_room_may_fail :
  let w := full_of_gone no_entropy in
  let r := Session.CreateSession (fun c : string => c) tt w in
  Session.maxSessons (Session.sm w) <= Z.of_nat (size (Session.sessions (Session.sm w))) /\
  Z.of_nat (size (Session.sessions (Session.sm (snd r)))) < Session.maxSessons (Session.sm w) /\
  Session.sessions (Session.sm (snd r)) = ∅ /\
  fst r = (None, Some (wrapError "failed to generate session ID: no entropy"
                                 (foreignError "no entropy"%string))) /\
  ~ exists s, fst r = (Some s, None).
Proof.
  vm_compute. repeat split; try discriminate.
  intros [s H]. discriminate.
Qed.

Lemma CreateSession_at_capacity_witness :
  exists w' s now,
    Session.CreateSession (fun c : string => c) tt (full_of_gone zero_bytes)
      = ((Some s, None), w') /\
    now = 101 /\
    Session.ID s = EncodeToString (map (fun _ => x00) (seq 0 16)) /\
    Session.Metadata s = tt /\
    Session.CreatedAt s = now /\ Session.LastUsed s = now /\
    Session.ExpiresAt s = now + 500 /\
    Session.sessions (Session.sm w')
      = <[Session.ID s := s]> (Session.sessions (Session.sm (swept (full_of_gone zero_bytes)))) /\
    Session.sessions (Session.sm w') !! Session.ID s = Some s.
Proof.
  destruct (CreateSession_at_capacity (fun c : string => c) tt (full_of_gone zero_bytes))
    as (_ & _ & Hroom); [vm_compute; discriminate|].
  destruct Hroom as [_ Hid]; [vm_compute; reflexivity|].
  apply (Hid (fun _ => x00)). reflexivity.
Defined.

Lemma NewSessionManager_defaults_witness :
  (Session.ttl (Session.NewSessionManager (Meta := unit) 0 0) = 30 * Minute /\
   Session.maxSessons (Session.NewSessionManager (Meta := unit) 0 0) = 1000) /\
  (Session.ttl (Session.NewSessionManager (Meta := unit) (-5) (-1)) = -5 /\
   Session.maxSessons (Session.NewSessionManager (Meta := unit) (-5) (-1)) = -1) /\
  exists w',
    Session.CreateSession (fun c : string => c) tt
      (Session.mkWorld (Session.NewSessionManager (-5) (-1)) clock_from_100 zero_bytes)
      = ((None, Some (Session.capacity_error (-1))), w') /\
    Session.sessions (Session.sm w') ⊆ ∅ /\
    Session.maxSessons (Session.sm w') = -1.
Proof.
  split; [|split].
  - destruct (NewSessionManager_defaults (Meta := unit) (fun c : string => c) 0 0)
      as (_ & Httl & Hmax & _).
    split; [apply Httl | apply Hmax]; reflexivity.
  - destruct (NewSessionManager_defaults (Meta := unit) (fun c : string => c) (-5) (-1))
      as (_ & _ & _ & Httl & Hmax & _).
    split; [apply Httl | apply Hmax]; discriminate.
  - destruct (NewSessionManager_defaults (Meta := unit) (fun c : string => c) (-5) (-1))
      as (_ & _ & _ & _ & _ & Hrefuse).
    apply (Hrefuse eq_refl tt
             (Session.mkWorld (Session.NewSessionManager (-5) (-1)) clock_from_100 zero_bytes)).
    reflexivity.
Defined.

(** ** The retry policy *)

Section RetryFacts.
Import Retry.
Context {Cause X : Type}.
Variable Cause_Error : Cause -> string.
Variables IsTimeout IsServerTimeout IsTooManyRequests IsInternalError
          IsServiceUnavailable : error Cause -> bool.

Local Abbreviation retryable :=
  (isRetryable IsTimeout IsServerTimeout IsTooManyRequests IsInternalError
               IsServiceUnavailable).
Local Abbreviation loop :=
  (retry_loop Cause_Error IsTimeout IsServerTimeout IsTooManyRequests IsInternalError
              IsServiceUnavailable).
Local Abbreviation Retry :=
  (RetryWithBackoff Cause_Error IsTimeout IsServerTimeout IsTooManyRequests
                    IsInternalError IsServiceUnavailable).
Local Abbreviation guarded :=
  (selects_guarded IsTimeout IsServerTimeout IsTooManyRequests IsInternalError
                   IsServiceUnavailable).

Implicit Types (ctx : Context Cause) (cfg : RetryConfig) (w : World Cause X)
               (fn : X -> option (error Cause) * X) (e : error Cause).

(** The classification is the disjunction of the five API predicates. *)
Lemma isRetryable_spec e :
  retryable (Some e) =
    IsTimeout e || IsServerTimeout e || IsTooManyRequests e
    || IsInternalError e || IsServiceUnavailable e.
Proof.
  cbn. destruct (IsTimeout e), (IsServerTimeout e), (IsTooManyRequests e),
    (IsInternalError e), (IsServiceUnavailable e); reflexivity.
Qed.

(** One iteration of the loop whose attempt succeeds. *)
Lemma loop_success fuel ctx cfg fn attempt backoff lastErr w h :
  attempt <= MaxRetries cfg ->
  fn (heap w) = (None, h) ->
  loop (S fuel) ctx cfg fn attempt backoff lastErr w =
    Some (None, mkWorld h (selects w) (EvCall None :: trace w)).
Proof.
  intros Hle Hfn. cbn [retry_loop]. rewrite (proj2 (Z.leb_le _ _) Hle).
  unfold call. rewrite Hfn. reflexivity.
Qed.

(** One iteration whose attempt fails with an error that is not retryable. *)
Lemma loop_fatal fuel ctx cfg fn attempt backoff lastErr w e h :
  attempt <= MaxRetries cfg ->
  fn (heap w) = (Some e, h) ->
  retryable (Some e) = false ->
  loop (S fuel) ctx cfg fn attempt backoff lastErr w =
    Some (Some (wrapError ("non-retryable error: " +:+ Error Cause_Error e) e),
          mkWorld h (selects w) (EvCall (Some e) :: trace w)).
Proof.
  intros Hle Hfn Hfatal. cbn [retry_loop]. rewrite (proj2 (Z.leb_le _ _) Hle).
  unfold call. rewrite Hfn, Hfatal. reflexivity.
Qed.

(** The last iteration, failing with a retryable error. *)
Lemma loop_last fuel ctx cfg fn backoff lastErr w e h :
  fn (heap w) = (Some e, h) ->
  retryable (Some e) = true ->
  loop (S fuel) ctx cfg fn (MaxRetries cfg) backoff lastErr w =
    Some (Some (exceeded Cause_Error cfg (Some e)),
          mkWorld h (selects w) (EvCall (Some e) :: trace w)).
Proof.
  intros Hfn Hretry. cbn [retry_loop]. rewrite Z.leb_refl.
  unfold call. rewrite Hfn, Hretry, Z.eqb_refl. reflexivity.
Qed.

(** An earlier iteration failing with a retryable error, the context
    winning the [select]. *)
Lemma loop_cancelled fuel ctx cfg fn attempt backoff lastErr w e h :
  attempt < MaxRetries cfg ->
  fn (heap w) = (Some e, h) ->
  retryable (Some e) = true ->
  select_Done ctx (selects w) backoff = true ->
  loop (S fuel) ctx cfg fn attempt backoff lastErr w =
    Some (Some (wrapError (("context cancelled after " +:+ fmt_d (attempt + 1)
                            +:+ " attempts: ") +:+ Error Cause_Error (ctx_Err ctx))
                          (ctx_Err ctx)),
          mkWorld h (S (selects w))
                  (EvSelect backoff true :: EvCall (Some e) :: trace w)).
Proof.
  intros Hlt Hfn Hretry Hdone. cbn [retry_loop].
  rewrite (proj2 (Z.leb_le _ _) (Z.lt_le_incl _ _ Hlt)).
  unfold call. rewrite Hfn, Hretry. cbn [negb].
  rewrite (proj2 (Z.eqb_neq _ _) (Z.lt_neq _ _ Hlt)).
  unfold select. cbn [heap selects trace]. rewrite Hdone. reflexivity.
Qed.

(** An earlier iteration failing with a retryable error, the timer firing:
    the loop goes on with a grown backoff. *)
Lemma loop_again fuel ctx cfg fn attempt backoff lastErr w e h :
  attempt < MaxRetries cfg ->
  fn (heap w) = (Some e, h) ->
  retryable (Some e) = true ->
  select_Done ctx (selects w) backoff = false ->
  loop (S fuel) ctx cfg fn attempt backoff lastErr w =
    loop fuel ctx cfg fn (attempt + 1) (grow cfg backoff) (Some e)
         (mkWorld h (S (selects w))
                  (EvSelect backoff false :: EvCall (Some e) :: trace w)).
Proof.
  intros Hlt Hfn Hretry Htimer. cbn [retry_loop].
  rewrite (proj2 (Z.leb_le _ _) (Z.lt_le_incl _ _ Hlt)).
  unfold call. rewrite Hfn, Hretry. cbn [negb].
  rewrite (proj2 (Z.eqb_neq _ _) (Z.lt_neq _ _ Hlt)).
  unfold select. cbn [heap selects trace]. rewrite Htimer. reflexivity.
Qed.

(** The loop condition failing. *)
Lemma loop_exit fuel ctx cfg fn attempt backoff lastErr w :
  MaxRetries cfg < attempt ->
  loop (S fuel) ctx cfg fn attempt backoff lastErr w =
    Some (Some (exceeded Cause_Error cfg lastErr), w).
Proof.
  intros Hgt. cbn [retry_loop]. rewrite (proj2 (Z.leb_gt _ _) Hgt). reflexivity.
Qed.

Lemma invocations_app (l1 l2 : list (Event Cause)) :
  invocations (l1 ++ l2) = (invocations l1 + invocations l2)%nat.
Proof.
  induction l1 as [|[r|d b] l1 IH]; cbn; [reflexivity | rewrite IH; reflexivity | exact IH].
Qed.

(** C7, as amended.  With a retry budget that is not negative, an operation
    whose first call fails with an error classified as not retryable is
    called exactly once, and the result wraps that very error in a message
    that starts with "non-retryable error: ". *)
Theorem RetryWithBackoff_stops_at_fatal_error ctx (cfg : option RetryConfig) fn w e h :
  0 <= MaxRetries (effective cfg) ->
  fn (heap w) = (Some e, h) ->
  retryable (Some e) = false ->
  exists err w',
    Retry ctx cfg fn w = Some (Some err, w') /\
    err = wrapError ("non-retryable error: " +:+ Error Cause_Error e) e /\
    Unwrap err = Some e /\
    trace w' = EvCall (Some e) :: trace w /\
    invocations (trace w') = S (invocations (trace w)) /\
    heap w' = h.
Proof.
  intros Hbudget Hfn Hfatal. unfold RetryWithBackoff.
  rewrite (loop_fatal _ _ _ _ _ _ _ _ _ _ Hbudget Hfn Hfatal).
  eexists _, _. repeat split.
Qed.

(** The loop when every attempt fails with a retryable error and the
    context never wins a [select]. *)
Lemma loop_exhausts ctx cfg fn :
  (forall k d, select_Done ctx k d = false) ->
  (forall x, exists e h, fn x = (Some e, h) /\ retryable (Some e) = true) ->
  forall fuel attempt backoff lastErr w,
    attempt <= MaxRetries cfg ->
    (Z.to_nat (MaxRetries cfg - attempt) < fuel)%nat ->
    exists e w' tl,
      loop fuel ctx cfg fn attempt backoff lastErr w =
        Some (Some (exceeded Cause_Error cfg (Some e)), w') /\
      trace w' = EvCall (Some e) :: tl /\
      invocations (trace w') =
        (Z.to_nat (MaxRetries cfg - attempt + 1) + invocations (trace w))%nat.
Proof.
  intros Hctx Hfails. induction fuel as [|fuel IH]; intros attempt backoff lastErr w Hle Hfuel.
  - lia.
  - destruct (Hfails (heap w)) as (e & h & Hfn & Hretry).
    destruct (Z.eq_dec attempt (MaxRetries cfg)) as [->|Hne].
    + rewrite (loop_last _ _ _ _ _ _ _ _ _ Hfn Hretry).
      eexists _, _, _. split; [reflexivity|]. cbn [trace invocations].
      split; [reflexivity|].
      replace (MaxRetries cfg - MaxRetries cfg + 1) with 1 by lia. reflexivity.
    + assert (attempt < MaxRetries cfg) as Hlt by lia.
      rewrite (loop_again _ _ _ _ _ _ _ _ _ _ Hlt Hfn Hretry (Hctx _ _)).
      destruct (IH (attempt + 1) (grow cfg backoff) (Some e)
                   (mkWorld h (S (selects w))
                      (EvSelect backoff false :: EvCall (Some e) :: trace w)))
        as (e' & w' & tl & Hrun & Htrace & Hcount); [lia | lia |].
      exists e', w', tl. split; [exact Hrun|]. split; [exact Htrace|].
      rewrite Hcount. cbn [trace invocations]. lia.
Qed.

(** C8.  With a retry budget [n >= 0], an operation that fails with a
    retryable error at every call, and a context that is never cancelled,
    [RetryWithBackoff] calls the operation exactly [n + 1] times and
    returns an error that names the budget [n] and wraps the error of the
    last call. *)
Theorem RetryWithBackoff_exhausts_budget ctx (cfg : option RetryConfig) fn w :
  let n := MaxRetries (effective cfg) in
  0 <= n ->
  (forall k d, select_Done ctx k d = false) ->
  (forall x, exists e h, fn x = (Some e, h) /\ retryable (Some e) = true) ->
  exists e w' tl,
    Retry ctx cfg fn w =
      Some (Some (wrapError (("max retries (" +:+ fmt_d n +:+ ") exceeded: ")
                             +:+ Error Cause_Error e) e), w') /\
    trace w' = EvCall (Some e) :: tl /\
    invocations (trace w') = (Z.to_nat (n + 1) + invocations (trace w))%nat.
Proof.
  intros n Hn Hctx Hfails. unfold RetryWithBackoff.
  destruct (loop_exhausts ctx (effective cfg) fn Hctx Hfails
              (S (Z.to_nat (MaxRetries (effective cfg) + 1))) 0
              (InitialBackoff (effective cfg)) None w)
    as (e & w' & tl & Hrun & Htrace & Hcount); [exact Hn | lia |].
  exists e, w', tl. split; [exact Hrun|]. split; [exact Htrace|].
  rewrite Hcount. subst n. rewrite Z.sub_0_r. reflexivity.
Qed.

(** The loop returns: the bound on its iterations is never exhausted. *)
Lemma loop_returns ctx cfg fn :
  forall fuel attempt backoff lastErr w,
    (Z.to_nat (MaxRetries cfg - attempt + 1) < fuel)%nat ->
    exists r w', loop fuel ctx cfg fn attempt backoff lastErr w = Some (r, w').
Proof.
  induction fuel as [|fuel IH]; intros attempt backoff lastErr w Hfuel; [lia|].
  cbn [retry_loop].
  destruct (Z.leb_spec attempt (MaxRetries cfg)) as [Hle|Hgt]; [|eauto].
  destruct (call fn w) as [[e|] w1]; [|eauto].
  destruct (negb (retryable (Some e))); [eauto|].
  destruct (Z.eqb_spec attempt (MaxRetries cfg)) as [Heq|Hne]; [eauto|].
  destruct (select ctx backoff w1) as [[|] w2]; [eauto|].
  apply IH. lia.
Qed.

Lemma RetryWithBackoff_returns ctx (cfg : option RetryConfig) fn w :
  exists r w', Retry ctx cfg fn w = Some (r, w').
Proof. unfold RetryWithBackoff. apply loop_returns. lia. Qed.

(** The events of the loop, whatever the operation and the context do. *)
Lemma loop_trace ctx cfg fn :
  forall fuel attempt backoff lastErr w,
    (Z.to_nat (MaxRetries cfg - attempt + 1) < fuel)%nat ->
    guarded (trace w) = true ->
    exists r w' new,
      loop fuel ctx cfg fn attempt backoff lastErr w = Some (r, w') /\
      trace w' = new ++ trace w /\
      guarded (trace w') = true /\
      (attempt <= MaxRetries cfg ->
         exists later, new = later ++ [EvCall (fst (fn (heap w)))]) /\
      (r = None -> exists tl, trace w' = EvCall None :: tl).
Proof.
  induction fuel as [|fuel IH]; intros attempt backoff lastErr w Hfuel Hguard; [lia|].
  destruct (Z.le_gt_cases attempt (MaxRetries cfg)) as [Hle|Hgt].
  2:{ rewrite (loop_exit _ _ _ _ _ _ _ _ Hgt). eexists _, w, [].
      split; [reflexivity|]. repeat split; [assumption | lia | discriminate]. }
  destruct (fn (heap w)) as [[e|] h] eqn:Hfn; cbn [fst].
  2:{ rewrite (loop_success _ _ _ _ _ _ _ _ _ Hle Hfn). eexists _, _, [_].
      split; [reflexivity|]. cbn. repeat split; [assumption | | eauto].
      intros _. exists []. reflexivity. }
  destruct (retryable (Some e)) eqn:Hretry.
  2:{ rewrite (loop_fatal _ _ _ _ _ _ _ _ _ _ Hle Hfn Hretry). eexists _, _, [_].
      split; [reflexivity|]. cbn [trace app selects_guarded].
      repeat split; [assumption | | discriminate].
      intros _. exists []. reflexivity. }
  destruct (Z.eq_dec attempt (MaxRetries cfg)) as [->|Hne].
  { rewrite (loop_last _ _ _ _ _ _ _ _ _ Hfn Hretry). eexists _, _, [_].
    split; [reflexivity|]. cbn [trace app selects_guarded].
    repeat split; [assumption | | discriminate].
    intros _. exists []. reflexivity. }
  assert (attempt < MaxRetries cfg) as Hlt by lia.
  destruct (select_Done ctx (selects w) backoff) eqn:Hsel.
  { rewrite (loop_cancelled _ _ _ _ _ _ _ _ _ _ Hlt Hfn Hretry Hsel).
    eexists _, _, [_; _].
    split; [reflexivity|]. cbn [trace app selects_guarded]. rewrite Hretry, Hguard.
    repeat split; [ | discriminate].
    intros _. exists [EvSelect backoff true]. reflexivity. }
  rewrite (loop_again _ _ _ _ _ _ _ _ _ _ Hlt Hfn Hretry Hsel).
  destruct (IH (attempt + 1) (grow cfg backoff) (Some e)
               (mkWorld h (S (selects w))
                  (EvSelect backoff false :: EvCall (Some e) :: trace w)))
    as (r & w' & new & Hrun & Htrace & Hguard' & _ & Hsuccess).
  { lia. }
  { cbn [trace selects_guarded]. rewrite Hretry, Hguard. reflexivity. }
  exists r, w', (new ++ [EvSelect backoff false; EvCall (Some e)]).
  split; [exact Hrun|]. cbn [trace] in Htrace.
  repeat split; [ | assumption | | assumption].
  - rewrite Htrace, <- app_assoc. reflexivity.
  - intros _. exists (new ++ [EvSelect backoff false]).
    rewrite <- app_assoc. reflexivity.
Qed.

(** C10, as amended.  With a retry budget that is not negative, whatever
    the context does (cancelled before the call or not), the run returns
    and its first event is a call of the operation, so that the operation
    is called at least once.  The context is consulted only directly after
    a call that failed with a retryable error: never before the first
    call, and never after a call that succeeded, which ends the run. *)
Theorem RetryWithBackoff_consults_context_only_after_retryable_failure
    ctx (cfg : option RetryConfig) fn w :
  0 <= MaxRetries (effective cfg) ->
  trace w = [] ->
  exists r w',
    Retry ctx cfg fn w = Some (r, w') /\
    (exists later, trace w' = later ++ [EvCall (fst (fn (heap w)))]) /\
    (1 <= invocations (trace w'))%nat /\
    guarded (trace w') = true /\
    (r = None -> exists tl, trace w' = EvCall None :: tl).
Proof.
  intros Hbudget Hfresh. unfold RetryWithBackoff.
  destruct (loop_trace ctx (effective cfg) fn
              (S (Z.to_nat (MaxRetries (effective cfg) + 1))) 0
              (InitialBackoff (effective cfg)) None w)
    as (r & w' & new & Hrun & Htrace & Hguard & Hfirst & Hsuccess).
  { lia. }
  { rewrite Hfresh. reflexivity. }
  destruct (Hfirst Hbudget) as [later Hnew].
  rewrite Hfresh, app_nil_r, Hnew in Htrace.
  exists r, w'. split; [exact Hrun|].
  split; [eauto|]. split; [|split; assumption].
  rewrite Htrace, invocations_app. cbn. lia.
Qed.

End RetryFacts.

(** *** The retry policy on concrete runs *)

(** A classification in which only the error "timeout" is retryable. *)
Definition is_timeout (e : error string) : bool :=
  match e with
  | foreignError c => String.eqb c "timeout"
  | _ => false
  end.

Definition is_never (e : error string) : bool := false.

Definition classify : option (error string) -> bool :=
  Retry.isRetryable is_timeout is_never is_never is_never is_never.

(** [RetryWithBackoff] under that classification, for closures that capture
    a counter. *)
Definition retry_run :
    Retry.Context string -> option Retry.RetryConfig ->
    (nat -> option (error string) * nat) -> Retry.World string nat ->
    option (option (error string) * Retry.World string nat) :=
  Retry.RetryWithBackoff (fun c : string => c) is_timeout is_never is_never is_never is_never.

Definition fresh_run : Retry.World string nat := Retry.mkWorld 0%nat 0%nat [].

Definition always_forbidden (calls : nat) : option (error string) * nat :=
  (Some (foreignError "forbidden"%string), S calls).

Definition always_timeout (calls : nat) : option (error string) * nat :=
  (Some (foreignError "timeout"%string), S calls).

Definition never_cancelled : Retry.Context string :=
  Retry.mkContext (fun _ _ => false) (foreignError "context canceled"%string).

Definition already_cancelled : Retry.Context string :=
  Retry.mkContext (fun _ _ => true) (foreignError "context canceled"%string).

Definition two_retries : Retry.RetryConfig :=
  Retry.mkConfig 2 (10 * Millisecond) (100 * Millisecond) 2%Q.

Definition negative_budget : Retry.RetryConfig :=
  Retry.mkConfig (-1) (10 * Millisecond) (100 * Millisecond) 2%Q.

(** With a budget of -1 an operation whose first call would fail with an
    error that is not retryable is not called at all, and the error returned
    wraps nothing. *)
Lemma RetryWithBackoff_negative_budget_skips_fatal_operation :
  fst (always_forbidden (Retry.heap fresh_run)) = Some (foreignError "forbidden"%string) /\
  classify (Some (foreignError "forbidden"%string)) = false /\
  exists err w',
    retry_run never_cancelled (Some negative_budget) always_forbidden fresh_run
      = Some (Some err, w') /\
    err = errorString "max retries (-1) exceeded: %!w(<nil>)" /\
    Unwrap err = None /\
    Retry.invocations (Retry.trace w') = 0%nat /\
    Retry.heap w' = 0%nat.
Proof.
  split; [reflexivity|]. split; [reflexivity|].
  exists (errorString "max retries (-1) exceeded: %!w(<nil>)"), fresh_run.
  vm_compute. repeat split.
Qed.

(** With a budget of -1 and a context cancelled beforehand the operation is
    not called. *)
Lemma RetryWithBackoff_negative_budget_cancelled_never_calls :
  exists r w',
    retry_run already_cancelled (Some negative_budget) always_timeout fresh_run
      = Some (r, w') /\
    Retry.trace w' = [] /\
    ~ (1 <= Retry.invocations (Retry.trace w'))%nat.
Proof.
  exists (Some (errorString "max retries (-1) exceeded: %!w(<nil>)")), fresh_run.
  split; [vm_compute; reflexivity|]. split; [reflexivity|]. cbn. lia.
Qed.

Lemma RetryWithBackoff_stops_at_fatal_error_witness :
  exists err w',
    retry_run already_cancelled (Some two_retries) always_forbidden fresh_run
      = Some (Some err, w') /\
    err = wrapError ("non-retryable error: " +:+ "forbidden") (foreignError "forbidden"%string) /\
    Unwrap err = Some (foreignError "forbidden"%string) /\
    Retry.trace w' = [Retry.EvCall (Some (foreignError "forbidden"%string))] /\
    Retry.invocations (Retry.trace w') = 1%nat /\
    Retry.heap w' = 1%nat.
Proof.
  apply (RetryWithBackoff_stops_at_fatal_error (fun c : string => c)
           is_timeout is_never is_never is_never is_never
           already_cancelled (Some two_retries) always_forbidden fresh_run
           (foreignError "forbidden"%string) 1%nat);
    [vm_compute; discriminate | reflexivity | reflexivity].
Defined.

Lemma RetryWithBackoff_exhausts_budget_witness :
  exists e w' tl,
    retry_run never_cancelled (Some two_retries) always_timeout fresh_run
      = Some (Some (wrapError (("max retries (" +:+ fmt_d 2 +:+ ") exceeded: ")
                               +:+ Error (fun c : string => c) e) e), w') /\
    Retry.trace w' = Retry.EvCall (Some e) :: tl /\
    Retry.invocations (Retry.trace w') = (Z.to_nat (2 + 1) + 0)%nat.
Proof.
  apply (RetryWithBackoff_exhausts_budget (fun c : string => c)
           is_timeout is_never is_never is_never is_never
           never_cancelled (Some two_retries) always_timeout fresh_run).
  - vm_compute. discriminate.
  - intros k d. reflexivity.
  - intros x. eexists _, _. split; reflexivity.
Defined.

Lemma RetryWithBackoff_consults_context_witness :
  exists r w',
    retry_run already_cancelled (Some two_retries) always_timeout fresh_run = Some (r, w') /\
    (exists later,
       Retry.trace w' = later ++ [Retry.EvCall (Some (foreignError "timeout"%string))]) /\
    (1 <= Retry.invocations (Retry.trace w'))%nat /\
    Retry.selects_guarded is_timeout is_never is_never is_never is_never (Retry.trace w')
      = true /\
    (r = None -> exists tl, Retry.trace w' = Retry.EvCall None :: tl).
Proof.
  apply (RetryWithBackoff_consults_context_only_after_retryable_failure
           (fun c : string => c) is_timeout is_never is_never is_never is_never
           already_cancelled (Some two_retries) always_timeout fresh_run);
    [vm_compute; discriminate | reflexivity].
Defined.

(** The same runs, evaluated. *)
Example retry_three_timeouts :
  retry_run never_cancelled (Some two_retries) always_timeout fresh_run =
    Some (Some (wrapError "max retries (2) exceeded: timeout" (foreignError "timeout"%string)),
          Retry.mkWorld 3%nat 2%nat
            [Retry.EvCall (Some (foreignError "timeout"%string));
             Retry.EvSelect 20000000 false;
             Retry.EvCall (Some (foreignError "timeout"%string));
             Retry.EvSelect 10000000 false;
             Retry.EvCall (Some (foreignError "timeout"%string))]).
Proof. vm_compute. reflexivity. Qed.

Example retry_cancelled_after_first_timeout :
  retry_run already_cancelled (Some two_retries) always_timeout fresh_run =
    Some (Some (wrapError "context cancelled after 1 attempts: context canceled"
                          (foreignError "context canceled"%string)),
          Retry.mkWorld 1%nat 1%nat
            [Retry.EvSelect 10000000 true;
             Retry.EvCall (Some (foreignError "timeout"%string))]).
Proof. vm_compute. reflexivity. Qed.

(* ===================================================================== *)
(** * Further properties of the three packages                           *)
(* ===================================================================== *)

(** ** The cache: stores, lookups and counters *)

Section CacheMore.
Import Cache.
Context {V X Err : Type}.
Implicit Types (w : World V X) (key : string) (entry : CacheEntry V).

(** The world after a monadic call. *)
Local Abbreviation after m w := (snd (m w)).

Lemma SetWithTTL_run key (value : option V) (ttl : Duration) w :
  SetWithTTL key value ttl w =
    (tt, set_data (fun d => <[key := mkEntry value (clock_read (clock w) + ttl)]> d)
           (mkWorld (cache w) (clock_tick (clock w)) (heap w) (compute_calls w))).
Proof. reflexivity. Qed.

(** X1.  A value stored with [SetWithTTL] is found by the next [Get] of the
    key when the clock then reads no later than the store time plus the time
    to live, and is reported as missing when it reads later.  A time to live
    of zero or less is not "no expiry": the entry is dead as soon as the
    clock has moved past the store time plus that value. *)
Theorem SetWithTTL_then_Get key (value : option V) (ttl : Duration) w :
  let stored_at := clock_read (clock w) in
  let read_at := readings (clock w) (S (ticks (clock w))) in
  (read_at <= stored_at + ttl ->
     fst (Get key (after (SetWithTTL key value ttl) w)) = (value, true)) /\
  (stored_at + ttl < read_at ->
     fst (Get key (after (SetWithTTL key value ttl) w)) = (None, false)).
Proof.
  cbn zeta. rewrite SetWithTTL_run. cbn [snd].
  split; intros Hclock.
  - erewrite Get_present by (cbn; apply lookup_insert_eq). cbn.
    unfold Time_After, Time_Add, clock_read. cbn.
    destruct (Z.ltb_spec (readings (clock w) (ticks (clock w)) + ttl)
                         (readings (clock w) (S (ticks (clock w))))); [|reflexivity].
    unfold clock_read in Hclock. lia.
  - erewrite Get_present by (cbn; apply lookup_insert_eq). cbn.
    unfold Time_After, Time_Add, clock_read. cbn.
    destruct (Z.ltb_spec (readings (clock w) (ticks (clock w)) + ttl)
                         (readings (clock w) (S (ticks (clock w))))); [reflexivity|].
    unfold clock_read in Hclock. lia.
Qed.

(** X2.  [Set] stores under the default time to live of the cache, replaces
    whatever the key held, and touches nothing else: the other keys, the
    counters and the default time to live stay as they were, and the number
    of entries grows by one exactly when the key was not stored before. *)
Theorem Set_overwrites_one_key key (value : option V) w :
  let w' := after (Set_ key value) w in
  data (cache w') !! key
    = Some (mkEntry value (clock_read (clock w) + defaultTTL (cache w))) /\
  (forall other, other <> key -> data (cache w') !! other = data (cache w) !! other) /\
  stats (cache w') = stats (cache w) /\
  defaultTTL (cache w') = defaultTTL (cache w) /\
  size (data (cache w')) =
    match data (cache w) !! key with
    | Some _ => size (data (cache w))
    | None => S (size (data (cache w)))
    end.
Proof.
  cbn. repeat split.
  - apply lookup_insert_eq.
  - intros other Hne. apply lookup_insert_ne. congruence.
  - rewrite map_size_insert. destruct (data (cache w) !! key); reflexivity.
Qed.

(** One [Get] adds exactly one to the sum of hits and misses and lowers
    neither, as long as the counters do not overflow. *)
Lemma Get_counts_one_lookup key w :
  0 <= hits (stats (cache w)) < int64_max ->
  0 <= misses (stats (cache w)) < int64_max ->
  let w' := after (Get key) w in
  hits (stats (cache w')) + misses (stats (cache w'))
    = hits (stats (cache w)) + misses (stats (cache w)) + 1 /\
  hits (stats (cache w)) <= hits (stats (cache w')) /\
  misses (stats (cache w)) <= misses (stats (cache w')) /\
  evictions (stats (cache w')) = evictions (stats (cache w)).
Proof.
  intros Hh Hm. cbn zeta.
  assert (int64_add (hits (stats (cache w))) 1 = hits (stats (cache w)) + 1) as Eh
    by (apply int64_add_exact; unfold in_int64, int64_min, int64_max in *; lia).
  assert (int64_add (misses (stats (cache w))) 1 = misses (stats (cache w)) + 1) as Em
    by (apply int64_add_exact; unfold in_int64, int64_min, int64_max in *; lia).
  destruct (data (cache w) !! key) as [entry|] eqn:Hkey.
  - rewrite (Get_present _ _ _ Hkey). cbn.
    destruct (Time_After _ _); cbn; rewrite ?Eh, ?Em; lia.
  - rewrite (Get_absent _ _ Hkey). cbn. rewrite Em. lia.
Qed.

(** A run of lookups, one [Get] per key of the list. *)
Fixpoint lookups (keys : list string) : M (World V X) unit :=
  match keys with
  | [] => ret tt
  | key :: keys => bind (Get key) (fun _ => lookups keys)
  end.

Lemma lookups_counters (keys : list string) w :
  0 <= hits (stats (cache w)) ->
  0 <= misses (stats (cache w)) ->
  hits (stats (cache w)) + misses (stats (cache w)) + Z.of_nat (length keys) <= int64_max ->
  let w' := after (lookups keys) w in
  hits (stats (cache w')) + misses (stats (cache w'))
    = hits (stats (cache w)) + misses (stats (cache w)) + Z.of_nat (length keys) /\
  hits (stats (cache w)) <= hits (stats (cache w')) /\
  misses (stats (cache w)) <= misses (stats (cache w')) /\
  evictions (stats (cache w')) = evictions (stats (cache w)) /\
  data (cache w') = data (cache w).
Proof.
  revert w. induction keys as [|key keys IH]; intros w Hh Hm Hsum; cbn zeta.
  - cbn. repeat split; lia.
  - cbn [lookups]. unfold bind. destruct (Get key w) as [r w1] eqn:HG.
    pose proof (Get_counts_one_lookup key w) as Hone.
    pose proof (Get_frame key w) as (Hd & _).
    rewrite HG in Hone, Hd. cbn [snd] in Hone, Hd.
    cbn [length] in Hsum.
    destruct Hone as (Hsum1 & Hh1 & Hm1 & He1); [lia | lia |].
    destruct (IH w1) as (Hsum' & Hh' & Hm' & He' & Hd'); [lia | lia | lia |].
    cbn zeta in *. cbn [length]. rewrite Hd', Hd, He', He1. repeat split; lia.
Qed.

(** X3.  Whatever the keys and whatever the outcomes, the sum of hits and
    misses grows by the number of [Get] calls made; neither counter goes
    down, and the evictions and the stored entries are not touched. *)
Theorem lookups_count_hits_and_misses (keys : list string) w :
  0 <= hits (stats (cache w)) ->
  0 <= misses (stats (cache w)) ->
  hits (stats (cache w)) + misses (stats (cache w)) + Z.of_nat (length keys) <= int64_max ->
  let w' := after (lookups keys) w in
  hits (stats (cache w')) + misses (stats (cache w'))
    = hits (stats (cache w)) + misses (stats (cache w)) + Z.of_nat (length keys) /\
  hits (stats (cache w)) <= hits (stats (cache w')) /\
  misses (stats (cache w)) <= misses (stats (cache w')) /\
  evictions (stats (cache w')) = evictions (stats (cache w)) /\
  data (cache w') = data (cache w).
Proof. exact (lookups_counters keys w). Qed.

(** X4.  After [ResetStatistics] the statistics report, as hits plus misses,
    exactly the number of lookups made since; the reset and the lookups
    leave the stored entries alone. *)
Theorem ResetStatistics_then_lookups (keys : list string) w :
  Z.of_nat (length keys) <= int64_max ->
  let w' := after (lookups keys) (after ResetStatistics w) in
  let r := fst (GetStatistics w') in
  Hits r + Misses r = Z.of_nat (length keys) /\
  Evictions r = 0 /\
  Entries r = Z.of_nat (size (data (cache w))) /\
  data (cache w') = data (cache w).
Proof.
  intros Hlen. cbn zeta.
  destruct (lookups_counters keys (after ResetStatistics w))
    as (Hsum & _ & _ & He & Hd); [cbn; lia | cbn; lia | cbn; lia |].
  cbn zeta in Hsum, He, Hd.
  unfold GetStatistics, bind, gets, ret. cbn [fst snd Hits Misses Evictions Entries].
  rewrite Hsum, He, Hd. cbn. repeat split; lia.
Qed.

(** X5.  [Clear] empties the store and counts every entry it held as an
    eviction; every lookup that follows is a miss, and hits and misses are
    not changed by the clearing itself. *)
Theorem Clear_empties_and_counts w :
  int64_min <= evictions (stats (cache w)) ->
  evictions (stats (cache w)) + Z.of_nat (size (data (cache w))) <= int64_max ->
  let w' := after Clear w in
  data (cache w') = ∅ /\
  evictions (stats (cache w'))
    = evictions (stats (cache w)) + Z.of_nat (size (data (cache w))) /\
  hits (stats (cache w')) = hits (stats (cache w)) /\
  misses (stats (cache w')) = misses (stats (cache w)) /\
  Entries (fst (GetStatistics w')) = 0 /\
  (forall key, fst (Get key w') = (None, false)).
Proof.
  intros Hmin Hmax. cbn zeta.
  split; [reflexivity|]. split; [|split; [reflexivity|]].
  - cbn. apply int64_add_exact. unfold in_int64, int64_min, int64_max in *. lia.
  - split; [reflexivity|]. split; [reflexivity|].
    intros key. rewrite Get_absent by apply lookup_empty. reflexivity.
Qed.

Lemma add_evictions_iter (n : nat) (s : stats_t) :
  int64_min <= evictions s ->
  evictions s + Z.of_nat n <= int64_max ->
  Nat.iter n (add_evictions 1) s = mkStats (hits s) (misses s) (evictions s + Z.of_nat n).
Proof.
  intros Hmin. induction n as [|n IH]; intros Hmax.
  - cbn. rewrite Z.add_0_r. destruct s; reflexivity.
  - rewrite Nat.iter_succ, IH by lia. unfold add_evictions. cbn [hits misses evictions].
    rewrite int64_add_exact by (unfold in_int64, int64_min, int64_max in *; lia).
    f_equal. lia.
Qed.

(** The entries split into the expired ones and the others. *)
Lemma size_expired_split (now : Time) (d : gmap string (CacheEntry V)) :
  let expired (kv : string * CacheEntry V) : Prop :=
    Time_After now (Expiration kv.2) = true in
  (size (filter expired d) + size (filter (fun kv => ~ expired kv) d))%nat = size d.
Proof.
  cbn zeta.
  rewrite <- map_size_disj_union by apply map_disjoint_filter_complement.
  rewrite map_filter_union_complement. reflexivity.
Qed.

(** X6.  One pass of the periodic sweep removes exactly the entries whose
    expiration lies before the clock reading of the pass, keeps every other
    entry as it is, and adds to the evictions the number of entries it
    removed; hits and misses are left alone. *)
Theorem cleanupExpired_tick_removes_the_expired w :
  int64_min <= evictions (stats (cache w)) ->
  evictions (stats (cache w)) + Z.of_nat (size (data (cache w))) <= int64_max ->
  let now := clock_read (clock w) in
  let w' := after cleanupExpired_tick w in
  (forall key entry,
     data (cache w') !! key = Some entry <->
     data (cache w) !! key = Some entry /\ ~ Expiration entry < now) /\
  evictions (stats (cache w'))
    = evictions (stats (cache w))
      + (Z.of_nat (size (data (cache w))) - Z.of_nat (size (data (cache w')))) /\
  hits (stats (cache w')) = hits (stats (cache w)) /\
  misses (stats (cache w')) = misses (stats (cache w)).
Proof.
  intros Hmin Hmax. cbn zeta.
  pose proof (size_expired_split (clock_read (clock w)) (data (cache w))) as Hsplit.
  cbn beta zeta in Hsplit.
  unfold cleanupExpired_tick, bind, time_Now, gets, modify, set_data, set_stats.
  cbn [fst snd cache clock data stats heap compute_calls defaultTTL].
  rewrite add_evictions_iter by lia. cbn [hits misses evictions].
  split; [|split; [lia | split; reflexivity]].
  intros key entry. rewrite map_lookup_filter_Some. cbn.
  unfold Time_After. rewrite not_true_iff_false, Z.ltb_nlt. reflexivity.
Qed.

(** X7.  After [Delete] the key is gone: the next [Get] of it is a miss, the
    other keys are untouched, and a second [Delete] of the same key changes
    nothing at all, the eviction counter included. *)
Theorem Delete_then_Get_misses key w :
  let w' := after (Delete key) w in
  data (cache w') !! key = None /\
  fst (Get key w') = (None, false) /\
  (forall other, other <> key -> data (cache w') !! other = data (cache w) !! other) /\
  Delete key w' = (tt, w').
Proof.
  cbn zeta.
  assert (data (cache (after (Delete key) w)) !! key = None) as Hgone.
  { destruct (data (cache w) !! key) as [entry|] eqn:Hkey.
    - rewrite (Delete_present _ _ _ Hkey). cbn. apply lookup_delete_eq.
    - rewrite (Delete_absent _ _ Hkey). exact Hkey. }
  split; [exact Hgone|]. split; [|split].
  - rewrite (Get_absent _ _ Hgone). reflexivity.
  - intros other Hne. destruct (data (cache w) !! key) as [entry|] eqn:Hkey.
    + rewrite (Delete_present _ _ _ Hkey). cbn. apply lookup_delete_ne. congruence.
    + rewrite (Delete_absent _ _ Hkey). reflexivity.
  - apply Delete_absent. exact Hgone.
Qed.

(** X8.  The reported hit rate is a percentage: it lies between 0 and 100. *)
Theorem GetStatistics_hit_rate_bounds w :
  0 <= hits (stats (cache w)) ->
  0 <= misses (stats (cache w)) ->
  hits (stats (cache w)) + misses (stats (cache w)) <= int64_max ->
  (0 <= HitRate (fst (GetStatistics w)) /\ HitRate (fst (GetStatistics w)) <= 100)%Q.
Proof.
  intros Hh Hm Hsum.
  unfold GetStatistics, bind, gets, ret. cbn [fst snd HitRate].
  rewrite int64_add_exact by (unfold in_int64, int64_min, int64_max in *; lia).
  destruct (Z.ltb_spec 0 (hits (stats (cache w)) + misses (stats (cache w)))) as [Hpos|Hzero].
  - destruct (hits (stats (cache w)) + misses (stats (cache w))) as [|total|total] eqn:Htotal;
      [lia | | lia].
    unfold Qle, Qdiv, Qmult, Qinv, inject_Z. cbn. split; lia.
  - unfold Qle. cbn. lia.
Qed.

(** X9.  A [GetOrSet] that returns a value without an error leaves that value
    cached under the key; while the clock reads no later than the entry's
    expiration, every later [GetOrSet] of the key returns the same value and
    does not call its [compute]. *)
Theorem GetOrSet_memoizes key (compute compute' : X -> (option V * option Err) * X)
    w w1 (value : option V) :
  GetOrSet key compute w = ((value, None), w1) ->
  exists entry,
    data (cache w1) !! key = Some entry /\
    Value entry = value /\
    (clock_read (clock w1) <= Expiration entry ->
       fst (GetOrSet key compute' w1) = (value, None) /\
       compute_calls (after (GetOrSet key compute') w1) = compute_calls w1 /\
       heap (after (GetOrSet key compute') w1) = heap w1).
Proof.
  intros Hrun.
  assert (exists entry, data (cache w1) !! key = Some entry /\ Value entry = value)
    as (entry & Hstored & Hvalue).
  { revert Hrun. unfold GetOrSet. unfold bind at 1.
    destruct (data (cache w) !! key) as [entry|] eqn:Hkey.
    - rewrite (Get_present _ _ _ Hkey). cbn zeta.
      destruct (Time_After _ _); cbn [fst snd].
      + cbv [bind invoke Set_ SetWithTTL time_Now gets modify set_data set_stats ret].
        cbn [fst snd cache clock heap compute_calls data defaultTTL stats].
        destruct (compute (heap w)) as [[val [err|]] h]; cbn [fst snd]; intros [= <- <-].
        eexists. split; [cbn; apply lookup_insert_eq | reflexivity].
      + intros [= <- <-]. exists entry. split; [exact Hkey | reflexivity].
    - rewrite (Get_absent _ _ Hkey). cbn [fst snd].
      cbv [bind invoke Set_ SetWithTTL time_Now gets modify set_data set_stats ret].
      cbn [fst snd cache clock heap compute_calls data defaultTTL stats].
      destruct (compute (heap w)) as [[val [err|]] h]; cbn [fst snd]; intros [= <- <-].
      eexists. split; [cbn; apply lookup_insert_eq | reflexivity]. }
  exists entry. split; [exact Hstored|]. split; [exact Hvalue|].
  intros Hlive.
  assert (GetOrSet key compute' w1 =
            ((value, None),
             set_stats incr_hits
               (mkWorld (cache w1) (clock_tick (clock w1)) (heap w1) (compute_calls w1))))
    as Hagain.
  { unfold GetOrSet. unfold bind at 1.
    rewrite (Get_present _ _ _ Hstored). cbn zeta.
    assert (Time_After (clock_read (clock w1)) (Expiration entry) = false) as ->
      by (unfold Time_After; lia).
    cbn. rewrite Hvalue. reflexivity. }
  rewrite Hagain. cbn. auto.
Qed.

End CacheMore.

(** ** Session identifiers *)

Definition is_hex_digit (c : ascii) : bool :=
  existsb (Ascii.eqb c) (list_ascii_of_string hextable).

(** The value of a lowercase hexadecimal digit. *)
Definition unhex (c : ascii) : option N :=
  (fix find (digits : list ascii) (n : N) : option N :=
     match digits with
     | [] => None
     | d :: digits => if Ascii.eqb c d then Some n else find digits (N.succ n)
     end) (list_ascii_of_string hextable) 0%N.

(** The inverse of [hex.EncodeToString] on the strings it produces. *)
Fixpoint unhex_string (s : string) : option (list byte) :=
  match s with
  | EmptyString => Some []
  | String hi (String lo rest) =>
      match unhex hi, unhex lo, unhex_string rest with
      | Some h, Some l, Some bs =>
          match Byte.of_N (16 * h + l) with
          | Some b => Some (b :: bs)
          | None => None
          end
      | _, _, _ => None
      end
  | String _ EmptyString => None
  end.

Lemma hex_pair_digits (b : byte) :
  is_hex_digit (hex_char (N.shiftr (Byte.to_N b) 4)) = true /\
  is_hex_digit (hex_char (N.land (Byte.to_N b) 15)) = true.
Proof. destruct b; split; reflexivity. Qed.

Lemma hex_pair_decodes (b : byte) :
  match unhex (hex_char (N.shiftr (Byte.to_N b) 4)),
        unhex (hex_char (N.land (Byte.to_N b) 15)) with
  | Some h, Some l => Byte.of_N (16 * h + l) = Some b
  | _, _ => False
  end.
Proof. destruct b; reflexivity. Qed.

Lemma EncodeToString_cons (b : byte) (src : list byte) :
  EncodeToString (b :: src) =
    String (hex_char (N.shiftr (Byte.to_N b) 4))
           (String (hex_char (N.land (Byte.to_N b) 15)) (EncodeToString src)).
Proof. reflexivity. Qed.

Lemma EncodeToString_length (src : list byte) :
  String.length (EncodeToString src) = (2 * length src)%nat.
Proof.
  induction src as [|b src IH]; [reflexivity|].
  rewrite EncodeToString_cons. cbn [String.length length]. rewrite IH. lia.
Qed.

Lemma EncodeToString_digits (src : list byte) :
  forallb is_hex_digit (list_ascii_of_string (EncodeToString src)) = true.
Proof.
  induction src as [|b src IH]; [reflexivity|].
  destruct (hex_pair_digits b) as [Hhi Hlo].
  rewrite EncodeToString_cons. cbn [list_ascii_of_string forallb].
  rewrite Hhi, Hlo. exact IH.
Qed.

Lemma unhex_string_EncodeToString (src : list byte) :
  unhex_string (EncodeToString src) = Some src.
Proof.
  induction src as [|b src IH]; [reflexivity|].
  rewrite EncodeToString_cons. cbn [unhex_string].
  pose proof (hex_pair_decodes b) as Hb.
  destruct (unhex (hex_char (N.shiftr (Byte.to_N b) 4))) as [h|]; [|contradiction].
  destruct (unhex (hex_char (N.land (Byte.to_N b) 15))) as [l|]; [|contradiction].
  rewrite IH, Hb. reflexivity.
Qed.

Lemma EncodeToString_inj (a b : list byte) :
  EncodeToString a = EncodeToString b -> a = b.
Proof.
  intros H. apply (f_equal unhex_string) in H.
  rewrite !unhex_string_EncodeToString in H. congruence.
Qed.

(** ** The session manager: identifiers, round trips and limits *)

Section SessionMore.
Import Session.
Context {Meta Cause : Type}.
Variable Cause_Error : Cause -> string.
Variable Duration_String : Duration -> string.
Variable Duration_whole_seconds : Duration -> Z.
Variable len_Metadata : Meta -> Z.
Implicit Types (w : World Meta Cause) (id : string) (s : Session Meta).

Local Abbreviation after m w := (snd (m w)).

Lemma generateSessionID_run w :
  generateSessionID w =
    (match source (entropy w) (draws (entropy w)) with
     | inl gen => (EncodeToString (map gen (seq 0 16)), None)
     | inr c => (EmptyString, Some (foreignError c))
     end,
     mkWorld (sm w) (clock w) (entropy_used w)).
Proof.
  unfold generateSessionID, bind, rand_Read, ret.
  destruct (source (entropy w) (draws (entropy w))); reflexivity.
Qed.

(** X10.  A session identifier that [generateSessionID] returns without an
    error has exactly 32 characters, each of them one of 0-9 and a-f; when
    the entropy source fails the identifier is empty and the error is the
    one of the source. *)
Theorem generateSessionID_format w :
  let r := fst (generateSessionID w) in
  (snd r = None ->
     String.length (fst r) = 32%nat /\
     forallb is_hex_digit (list_ascii_of_string (fst r)) = true) /\
  (forall err, snd r = Some err ->
     fst r = EmptyString /\
     exists c, source (entropy w) (draws (entropy w)) = inr c /\ err = foreignError c).
Proof.
  cbn zeta. rewrite generateSessionID_run. cbn [fst].
  destruct (source (entropy w) (draws (entropy w))) as [gen|c]; cbn [fst snd]; split.
  - intros _. split; [|apply EncodeToString_digits].
    rewrite EncodeToString_length, length_map, length_seq. reflexivity.
  - intros err [=].
  - intros [=].
  - intros err [= <-]. split; [reflexivity|]. eauto.
Qed.

(** X11.  Two identifiers generated from different 16 bytes of entropy are
    different: nothing is lost between the random bytes and the identifier. *)
Theorem generateSessionID_injective w1 w2 (gen1 gen2 : nat -> byte) :
  source (entropy w1) (draws (entropy w1)) = inl gen1 ->
  source (entropy w2) (draws (entropy w2)) = inl gen2 ->
  fst (fst (generateSessionID w1)) = fst (fst (generateSessionID w2)) ->
  map gen1 (seq 0 16) = map gen2 (seq 0 16).
Proof.
  intros H1 H2. rewrite !generateSessionID_run, H1, H2. cbn [fst].
  apply EncodeToString_inj.
Qed.

(** What a successful [CreateSession] has done. *)
Lemma CreateSession_success_inv (metadata : Meta) w s w' :
  CreateSession Cause_Error metadata w = ((Some s, None), w') ->
  exists gen base reads,
    source (entropy w) (draws (entropy w)) = inl gen /\
    s = fresh_session reads gen metadata w /\
    sessions (sm w') = <[ID s := s]> base /\
    (size base <= size (sessions (sm w)))%nat /\
    Z.of_nat (size base) < maxSessons (sm w) /\
    ttl (sm w') = ttl (sm w) /\
    maxSessons (sm w') = maxSessons (sm w) /\
    clock w' = mkClock (readings (clock w)) (S (reads + ticks (clock w))).
Proof.
  intros Hrun.
  destruct (Z.le_gt_cases (maxSessons (sm w)) (Z.of_nat (size (sessions (sm w)))))
    as [Hfull|Hroom].
  - destruct (Z.le_gt_cases (maxSessons (sm w)) (Z.of_nat (size (sessions (sm (swept w))))))
      as [Hstill|Hfreed].
    + rewrite CreateSession_full in Hrun by assumption. discriminate.
    + destruct (source (entropy w) (draws (entropy w))) as [gen|c] eqn:Hsrc.
      * rewrite (CreateSession_swept_room _ _ _ _ Hfull Hfreed Hsrc) in Hrun.
        cbn zeta in Hrun. injection Hrun as <- <-.
        exists gen, (sessions (sm (swept w))), 1%nat.
        split; [reflexivity|]. split; [reflexivity|]. split; [reflexivity|].
        split; [apply map_size_filter|]. split; [exact Hfreed|].
        repeat split.
      * rewrite (CreateSession_swept_no_id _ _ _ _ Hfull Hfreed Hsrc) in Hrun. discriminate.
  - destruct (source (entropy w) (draws (entropy w))) as [gen|c] eqn:Hsrc.
    + rewrite (CreateSession_room _ _ _ _ Hroom Hsrc) in Hrun.
      cbn zeta in Hrun. injection Hrun as <- <-.
      exists gen, (sessions (sm w)), 0%nat.
      split; [reflexivity|]. split; [reflexivity|]. split; [reflexivity|].
      split; [lia|]. split; [exact Hroom|].
      repeat split.
    + rewrite (CreateSession_room_no_id _ _ _ _ Hroom Hsrc) in Hrun. discriminate.
Qed.

(** X12.  A session that [CreateSession] returns is stored under its own
    identifier, carries the caller's metadata, was created and last used at
    the same instant and expires one time to live later; its identifier has
    32 characters.  While the clock reads no later than that expiry,
    [GetSession] on the identifier returns this very session. *)
Theorem CreateSession_then_GetSession (metadata : Meta) w s w' :
  CreateSession Cause_Error metadata w = ((Some s, None), w') ->
  sessions (sm w') !! ID s = Some s /\
  Metadata s = metadata /\
  LastUsed s = CreatedAt s /\
  ExpiresAt s = CreatedAt s + ttl (sm w') /\
  String.length (ID s) = 32%nat /\
  (clock_read (clock w') <= ExpiresAt s -> fst (GetSession (ID s) w') = Some s).
Proof.
  intros Hrun.
  destruct (CreateSession_success_inv _ _ _ _ Hrun)
    as (gen & base & reads & _ & -> & Hstored & _ & _ & Httl & _ & _).
  assert (sessions (sm w') !! ID (fresh_session reads gen metadata w)
          = Some (fresh_session reads gen metadata w)) as Hthere
    by (rewrite Hstored; apply lookup_insert_eq).
  split; [exact Hthere|]. split; [reflexivity|]. split; [reflexivity|].
  split; [cbn; rewrite Httl; reflexivity|]. split.
  - unfold fresh_session. cbn [ID].
    rewrite EncodeToString_length, length_map, length_seq. reflexivity.
  - intros Hlive. unfold GetSession, bind, gets. rewrite Hthere.
    unfold time_Now. cbn [fst snd clock].
    assert (Time_After (clock_read (clock w'))
              (ExpiresAt (fresh_session reads gen metadata w)) = false) as ->
      by (unfold Time_After; lia).
    reflexivity.
Qed.

(** X13.  [CreateSession] never lets the number of stored sessions grow past
    the larger of the limit and the number stored before; a manager that is
    within its limit stays within it. *)
Theorem CreateSession_respects_limit (metadata : Meta) w :
  let w' := after (CreateSession Cause_Error metadata) w in
  Z.of_nat (size (sessions (sm w')))
    <= Z.max (maxSessons (sm w)) (Z.of_nat (size (sessions (sm w)))) /\
  (Z.of_nat (size (sessions (sm w))) <= maxSessons (sm w) ->
   Z.of_nat (size (sessions (sm w'))) <= maxSessons (sm w)).
Proof.
  cbn zeta.
  assert (Z.of_nat (size (sessions (sm (after (CreateSession Cause_Error metadata) w))))
          <= Z.max (maxSessons (sm w)) (Z.of_nat (size (sessions (sm w))))) as Hbound.
  { pose proof (map_size_filter (fun kv : string * Session Meta =>
                   expired_at (clock_read (clock w)) kv.2 = false) (sessions (sm w)))
      as Hsweep.
    destruct (Z.le_gt_cases (maxSessons (sm w)) (Z.of_nat (size (sessions (sm w)))))
      as [Hfull|Hroom].
    - destruct (Z.le_gt_cases (maxSessons (sm w)) (Z.of_nat (size (sessions (sm (swept w))))))
        as [Hstill|Hfreed].
      + rewrite CreateSession_full by assumption. cbn in *. unfold kept. lia.
      + destruct (source (entropy w) (draws (entropy w))) as [gen|c] eqn:Hsrc.
        * rewrite (CreateSession_swept_room _ _ _ _ Hfull Hfreed Hsrc). cbn in *.
          rewrite map_size_insert.
          destruct (kept _ _ !! _); cbn; unfold kept in *; lia.
        * rewrite (CreateSession_swept_no_id _ _ _ _ Hfull Hfreed Hsrc). cbn in *.
          unfold kept. lia.
    - destruct (source (entropy w) (draws (entropy w))) as [gen|c] eqn:Hsrc.
      + rewrite (CreateSession_room _ _ _ _ Hroom Hsrc). cbn.
        rewrite map_size_insert. destruct (sessions (sm w) !! _); cbn; lia.
      + rewrite (CreateSession_room_no_id _ _ _ _ Hroom Hsrc). cbn. lia. }
  split; [exact Hbound | lia].
Qed.

Lemma DeleteSession_present id w s :
  sessions (sm w) !! id = Some s ->
  DeleteSession id w = (true, set_sessions (delete id) w).
Proof. intros H. unfold DeleteSession, bind, gets. rewrite H. reflexivity. Qed.

Lemma DeleteSession_absent id w :
  sessions (sm w) !! id = None -> DeleteSession id w = (false, w).
Proof. intros H. unfold DeleteSession, bind, gets. rewrite H. reflexivity. Qed.

Lemma GetSession_unknown id w :
  sessions (sm w) !! id = None -> GetSession id w = (None, w).
Proof. intros Hnone. unfold GetSession, bind, gets. rewrite Hnone. reflexivity. Qed.

Lemma GetSession_expired id w s :
  sessions (sm w) !! id = Some s ->
  ExpiresAt s < clock_read (clock w) ->
  GetSession id w =
    (None, set_sessions (delete id) (mkWorld (sm w) (clock_tick (clock w)) (entropy w))).
Proof.
  intros Hsome Hexpired. unfold GetSession, bind, gets. rewrite Hsome.
  unfold time_Now.
  assert (Time_After (clock_read (clock w)) (ExpiresAt s) = true) as ->
    by (unfold Time_After; lia).
  rewrite (DeleteSession_present _ _ s) by exact Hsome. reflexivity.
Qed.

Lemma GetSession_live id w s :
  sessions (sm w) !! id = Some s ->
  clock_read (clock w) <= ExpiresAt s ->
  GetSession id w = (Some s, mkWorld (sm w) (clock_tick (clock w)) (entropy w)).
Proof.
  intros Hsome Hlive. unfold GetSession, bind, gets. rewrite Hsome.
  unfold time_Now.
  assert (Time_After (clock_read (clock w)) (ExpiresAt s) = false) as ->
    by (unfold Time_After; lia).
  reflexivity.
Qed.

(** X14.  [GetSession] on an identifier that is not stored returns nothing
    and changes nothing; on a session whose expiry lies before the clock
    reading it returns nothing and removes the session; on a live session it
    returns the session and leaves the manager as it is (a read does not
    extend the life of a session). *)
Theorem GetSession_outcomes id w :
  (sessions (sm w) !! id = None -> GetSession id w = (None, w)) /\
  (forall s,
     sessions (sm w) !! id = Some s ->
     ExpiresAt s < clock_read (clock w) ->
     fst (GetSession id w) = None /\
     sessions (sm (after (GetSession id) w)) = delete id (sessions (sm w)) /\
     sessions (sm (after (GetSession id) w)) !! id = None) /\
  (forall s,
     sessions (sm w) !! id = Some s ->
     clock_read (clock w) <= ExpiresAt s ->
     fst (GetSession id w) = Some s /\
     sm (after (GetSession id) w) = sm w).
Proof.
  split; [|split].
  - apply GetSession_unknown.
  - intros s Hsome Hexpired. rewrite (GetSession_expired _ _ _ Hsome Hexpired).
    cbn. rewrite lookup_delete_eq. auto.
  - intros s Hsome Hlive. rewrite (GetSession_live _ _ _ Hsome Hlive). auto.
Qed.

(** X15.  [DeleteSession] returns true exactly when the identifier was
    stored.  Afterwards the identifier is not stored, every other session is
    as before, and a second [DeleteSession] returns false and changes
    nothing. *)
Theorem DeleteSession_outcomes id w :
  let w' := after (DeleteSession id) w in
  (fst (DeleteSession id w) = true <-> exists s, sessions (sm w) !! id = Some s) /\
  sessions (sm w') !! id = None /\
  (forall other, other <> id -> sessions (sm w') !! other = sessions (sm w) !! other) /\
  DeleteSession id w' = (false, w').
Proof.
  cbn zeta.
  destruct (sessions (sm w) !! id) as [s|] eqn:Hlook.
  - rewrite (DeleteSession_present _ _ _ Hlook). cbn [fst snd].
    assert (sessions (sm (set_sessions (delete id) w)) !! id = None) as Hgone
      by (cbn; apply lookup_delete_eq).
    split; [split; eauto|]. split; [exact Hgone|].
    split; [intros other Hne; cbn; apply lookup_delete_ne; congruence|].
    apply DeleteSession_absent. exact Hgone.
  - rewrite (DeleteSession_absent _ _ Hlook). cbn [fst snd].
    split; [split; [discriminate | intros [s [=]]]|]. split; [exact Hlook|].
    split; [reflexivity|].
    apply DeleteSession_absent. exact Hlook.
Qed.

(** X16.  [TouchSession] returns false and changes nothing on an identifier
    that is not stored; it returns false and removes the session when the
    session's expiry lies before the clock reading; otherwise it returns
    true, keeps the session's identifier, creation time and metadata, sets
    its expiry to a later clock reading plus the time to live, and leaves
    every other session and the number of sessions as they were. *)
Theorem TouchSession_outcomes id w :
  (sessions (sm w) !! id = None -> TouchSession id w = (false, w)) /\
  (forall s,
     sessions (sm w) !! id = Some s ->
     ExpiresAt s < clock_read (clock w) ->
     fst (TouchSession id w) = false /\
     sessions (sm (after (TouchSession id) w)) = delete id (sessions (sm w))) /\
  (forall s,
     sessions (sm w) !! id = Some s ->
     clock_read (clock w) <= ExpiresAt s ->
     fst (TouchSession id w) = true /\
     (exists s',
        sessions (sm (after (TouchSession id) w)) !! id = Some s' /\
        ID s' = ID s /\ CreatedAt s' = CreatedAt s /\ Metadata s' = Metadata s /\
        LastUsed s' = readings (clock w) (S (ticks (clock w))) /\
        ExpiresAt s' = readings (clock w) (S (S (ticks (clock w)))) + ttl (sm w)) /\
     (forall other, other <> id ->
        sessions (sm (after (TouchSession id) w)) !! other = sessions (sm w) !! other) /\
     size (sessions (sm (after (TouchSession id) w))) = size (sessions (sm w))).
Proof.
  split; [|split].
  - apply TouchSession_unknown.
  - intros s Hsome Hexpired. rewrite (TouchSession_expired _ _ _ Hsome Hexpired). auto.
  - intros s Hsome Hlive. rewrite (TouchSession_live _ _ _ Hsome Hlive). cbn zeta.
    cbn [fst snd set_sessions sm sessions].
    split; [reflexivity|]. split; [|split].
    + eexists. split; [apply lookup_insert_eq|]. cbn. auto 10.
    + intros other Hne. apply lookup_insert_ne. congruence.
    + apply map_size_insert_Some. eauto.
Qed.

(** X17.  Sliding expiration never shortens a life.  Under a clock that does
    not run backwards, a successful touch of a session whose expiry was at
    most one time to live ahead of the clock leaves the expiry where it was
    or later, and at least one time to live after the recorded last use. *)
Theorem TouchSession_never_shortens id w s :
  sessions (sm w) !! id = Some s ->
  clock_read (clock w) <= ExpiresAt s ->
  ExpiresAt s <= clock_read (clock w) + ttl (sm w) ->
  monotone (clock w) ->
  exists s',
    sessions (sm (after (TouchSession id) w)) !! id = Some s' /\
    ExpiresAt s <= ExpiresAt s' /\
    LastUsed s' + ttl (sm w) <= ExpiresAt s'.
Proof.
  intros Hsome Hlive Hahead Hmono.
  rewrite (TouchSession_live _ _ _ Hsome Hlive). cbn zeta.
  eexists. split; [cbn; apply lookup_insert_eq|]. cbn.
  pose proof (Hmono (ticks (clock w))). pose proof (Hmono (S (ticks (clock w)))).
  unfold clock_read in *. lia.
Qed.

(** [kept] is what [GetStats] counts as active. *)
Lemma GetStats_counts (now : Time) (m : gmap string (Session Meta)) :
  let counts := map_fold (count_session now) (0, 0) m in
  fst counts = Z.of_nat (size (kept now m)) /\
  fst counts + snd counts = Z.of_nat (size m).
Proof.
  cbn zeta.
  apply (map_fold_weak_ind
           (fun counts m => fst counts = Z.of_nat (size (kept now m)) /\
                            fst counts + snd counts = Z.of_nat (size m))).
  - split; reflexivity.
  - intros i x m' r Hfresh [Hactive Htotal].
    unfold count_session, kept.
    rewrite map_size_insert_None by exact Hfresh.
    destruct (Time_After now (ExpiresAt x)) eqn:Hexp; cbn [fst snd].
    + rewrite map_filter_insert_False
        by (cbn; unfold expired_at; rewrite Hexp; discriminate).
      rewrite delete_id by exact Hfresh. unfold kept in Hactive. lia.
    + rewrite map_filter_insert_True by (cbn; unfold expired_at; exact Hexp).
      rewrite map_size_insert_None
        by (apply map_lookup_filter_None; left; exact Hfresh).
      unfold kept in Hactive. lia.
Qed.

(** X18.  [GetStats] sorts every stored session into active or expired at
    one clock reading: the two counts add up to the total, which is the
    number of stored sessions; the active ones are those an immediate sweep
    would keep; the limit is reported as configured; and the manager is not
    changed. *)
Theorem GetStats_partitions_sessions w :
  let r := fst (GetStats Duration_String w) in
  ActiveSessions r + ExpiredSessions r = TotalSessions r /\
  TotalSessions r = Z.of_nat (size (sessions (sm w))) /\
  ActiveSessions r = Z.of_nat (size (kept (clock_read (clock w)) (sessions (sm w)))) /\
  0 <= ExpiredSessions r /\
  MaxSessions r = maxSessons (sm w) /\
  sm (after (GetStats Duration_String) w) = sm w.
Proof.
  cbn zeta.
  destruct (GetStats_counts (clock_read (clock w)) (sessions (sm w))) as [Hactive Htotal].
  cbn zeta in Hactive, Htotal.
  pose proof (map_size_filter (fun kv : string * Session Meta =>
                 expired_at (clock_read (clock w)) kv.2 = false) (sessions (sm w))) as Hle.
  fold (kept (clock_read (clock w)) (sessions (sm w))) in Hle.
  assert (GetStats Duration_String w =
            (mkSessionStats
               (fst (map_fold (count_session (clock_read (clock w))) (0, 0) (sessions (sm w))))
               (snd (map_fold (count_session (clock_read (clock w))) (0, 0) (sessions (sm w))))
               (Z.of_nat (size (sessions (sm w)))) (maxSessons (sm w))
               (Duration_String (ttl (sm w))),
             mkWorld (sm w) (clock_tick (clock w)) (entropy w))) as -> by reflexivity.
  cbn [fst snd sm ActiveSessions ExpiredSessions TotalSessions MaxSessions].
  repeat split; try assumption; lia.
Qed.

(** X19.  [GetSessionInfo] gives nothing exactly when [GetSession] gives
    nothing, with the same effect on the manager (an expired session is
    removed).  For a live session it reports the stored identifier and
    timestamps, always says that the session is valid, tells only whether
    there is metadata, and computes the remaining seconds from a second,
    later clock reading; the manager is not changed. *)
Theorem GetSessionInfo_outcomes id w :
  let info := fst (GetSessionInfo Duration_whole_seconds len_Metadata id w) in
  let w' := after (GetSessionInfo Duration_whole_seconds len_Metadata id) w in
  (fst (GetSession id w) = None ->
     info = None /\ w' = after (GetSession id) w) /\
  (forall s,
     fst (GetSession id w) = Some s ->
     sessions (sm w) !! id = Some s /\
     info = Some (mkInfo (ID s) (CreatedAt s) (ExpiresAt s) (LastUsed s)
                    (Duration_whole_seconds
                       (ExpiresAt s - readings (clock w) (S (ticks (clock w)))))
                    true (0 <? len_Metadata (Metadata s))) /\
     sm w' = sm w).
Proof.
  cbn zeta. unfold GetSessionInfo, bind.
  destruct (sessions (sm w) !! id) as [s0|] eqn:Hlook.
  - destruct (Z.lt_ge_cases (ExpiresAt s0) (clock_read (clock w))) as [Hlt|Hge].
    + rewrite (GetSession_expired _ _ _ Hlook Hlt). cbn [fst snd].
      split; [auto|]. intros s [=].
    + rewrite (GetSession_live _ _ _ Hlook Hge). cbn [fst snd].
      split; [intros [=]|]. intros s [= <-].
      unfold time_Now, ret. cbn [fst snd sm clock].
      split; [reflexivity|]. split; reflexivity.
  - rewrite (GetSession_unknown _ _ Hlook). cbn. split; [auto|]. intros s [=].
Qed.

(** X20.  Sweeps compose: under a clock that does not run backwards two
    passes of [cleanupExpired] leave exactly the sessions that a single pass
    at the later reading would leave, and no pass removes a session that has
    not expired at its reading. *)
Theorem cleanupExpired_twice w :
  readings (clock w) (ticks (clock w)) <= readings (clock w) (S (ticks (clock w))) ->
  sessions (sm (after (cleanupExpired (Cause := Cause)) (after cleanupExpired w)))
    = kept (readings (clock w) (S (ticks (clock w)))) (sessions (sm w)) /\
  (forall id s,
     sessions (sm w) !! id = Some s ->
     ~ ExpiresAt s < readings (clock w) (S (ticks (clock w))) ->
     sessions (sm (after (cleanupExpired (Cause := Cause)) (after cleanupExpired w))) !! id
       = Some s).
Proof.
  intros Hclock.
  assert (sessions (sm (after (cleanupExpired (Cause := Cause)) (after cleanupExpired w)))
          = kept (readings (clock w) (S (ticks (clock w)))) (sessions (sm w))) as Heq.
  { unfold cleanupExpired. rewrite !cleanupExpiredLocked_run. cbn.
    unfold kept. apply map_filter_filter_l.
    intros id s _. cbn. unfold expired_at, Time_After, clock_read.
    rewrite !Z.ltb_ge. lia. }
  split; [exact Heq|].
  intros id s Hsome Hlive. rewrite Heq. apply kept_lookup. auto.
Qed.

End SessionMore.

(** ** The retry policy: schedules, budgets and outcomes *)

Section RetryMore.
Import Retry.
Context {Cause X : Type}.
Variable Cause_Error : Cause -> string.
Variables IsTimeout IsServerTimeout IsTooManyRequests IsInternalError
          IsServiceUnavailable : error Cause -> bool.

Local Abbreviation retryable :=
  (isRetryable IsTimeout IsServerTimeout IsTooManyRequests IsInternalError
               IsServiceUnavailable).
Local Abbreviation loop :=
  (retry_loop Cause_Error IsTimeout IsServerTimeout IsTooManyRequests IsInternalError
              IsServiceUnavailable).
Local Abbreviation Retry :=
  (RetryWithBackoff Cause_Error IsTimeout IsServerTimeout IsTooManyRequests
                    IsInternalError IsServiceUnavailable).

Implicit Types (ctx : Context Cause) (cfg : RetryConfig) (w : World Cause X)
               (fn : X -> option (error Cause) * X) (e : error Cause).

(** The captured state after [k] calls of the closure. *)
Definition state_after {St R : Type} (f : St -> R * St) (k : nat) (x : St) : St :=
  Nat.iter k (fun x => snd (f x)) x.

Lemma state_after_shift {St R : Type} (f : St -> R * St) (k : nat) (x : St) :
  state_after f (S k) x = state_after f k (snd (f x)).
Proof. unfold state_after. rewrite Nat.iter_succ_r. reflexivity. Qed.

(** The loop when the first [k] calls fail with retryable errors, the call
    after them succeeds, and the context never wins a [select]. *)
Lemma loop_succeeds_after ctx cfg fn :
  (forall n d, select_Done ctx n d = false) ->
  forall (k fuel : nat) attempt backoff lastErr w,
    attempt + Z.of_nat k <= MaxRetries cfg ->
    (k < fuel)%nat ->
    (forall i, (i < k)%nat ->
       exists e, fst (fn (state_after fn i (heap w))) = Some e /\
                 retryable (Some e) = true) ->
    fst (fn (state_after fn k (heap w))) = None ->
    exists w',
      loop fuel ctx cfg fn attempt backoff lastErr w = Some (None, w') /\
      heap w' = state_after fn (S k) (heap w) /\
      invocations (trace w') = (S k + invocations (trace w))%nat /\
      selects w' = (k + selects w)%nat.
Proof.
  intros Hctx. induction k as [|k IH]; intros fuel attempt backoff lastErr w Hbudget Hfuel Hfail Hok.
  - destruct fuel as [|fuel]; [lia|].
    change (state_after fn 0 (heap w)) with (heap w) in Hok.
    destruct (fn (heap w)) as [r h] eqn:Hfn. cbn [fst] in Hok. subst r.
    rewrite loop_success with (h := h) by (try exact Hfn; lia).
    eexists. split; [reflexivity|]. cbn. unfold state_after. cbn. rewrite Hfn. auto.
  - destruct fuel as [|fuel]; [lia|].
    destruct (Hfail 0%nat) as (e & He & Hretry); [lia|].
    change (state_after fn 0 (heap w)) with (heap w) in He.
    destruct (fn (heap w)) as [r h] eqn:Hfn. cbn [fst] in He. subst r.
    rewrite loop_again with (e := e) (h := h)
      by (try exact Hfn; try exact Hretry; try apply Hctx; lia).
    destruct (IH fuel (attempt + 1) (grow cfg backoff) (Some e)
                (mkWorld h (S (selects w))
                   (EvSelect backoff false :: EvCall (Some e) :: trace w)))
      as (w' & Hrun & Hheap & Hcalls & Hsel).
    + lia.
    + lia.
    + intros i Hi. cbn [heap]. destruct (Hfail (S i)) as (e' & He' & Hr'); [lia|].
      rewrite state_after_shift, Hfn in He'. eauto.
    + cbn [heap]. rewrite state_after_shift, Hfn in Hok. exact Hok.
    + exists w'. split; [exact Hrun|]. cbn [heap trace selects invocations] in *.
      rewrite Hheap, Hcalls, Hsel. rewrite (state_after_shift fn (S k)), Hfn.
      repeat split; lia.
Qed.

(** X21.  When the first [k] calls fail with retryable errors, [k] being
    within the retry budget, the next call succeeds and the context is never
    cancelled, [RetryWithBackoff] returns no error after exactly [k + 1]
    calls and [k] waits, leaving the closure's state as that last call left
    it. *)
Theorem RetryWithBackoff_succeeds_after_retries ctx (cfg : option RetryConfig) fn w (k : nat) :
  Z.of_nat k <= MaxRetries (effective cfg) ->
  (forall n d, select_Done ctx n d = false) ->
  (forall i, (i < k)%nat ->
     exists e, fst (fn (state_after fn i (heap w))) = Some e /\
               retryable (Some e) = true) ->
  fst (fn (state_after fn k (heap w))) = None ->
  exists w',
    Retry ctx cfg fn w = Some (None, w') /\
    heap w' = state_after fn (S k) (heap w) /\
    invocations (trace w') = (S k + invocations (trace w))%nat /\
    selects w' = (k + selects w)%nat.
Proof.
  intros Hbudget Hctx Hfail Hok. unfold RetryWithBackoff.
  apply loop_succeeds_after; try assumption; lia.
Qed.

(** The waits of a trace, oldest first. *)
Fixpoint waits (tr : list (Event Cause)) : list Duration :=
  match tr with
  | [] => []
  | EvSelect d _ :: tr => waits tr ++ [d]
  | EvCall _ :: tr => waits tr
  end.

(** The first [n] waits of a loop that starts with the backoff [b]. *)
Fixpoint schedule (cfg : RetryConfig) (b : Duration) (n : nat) : list Duration :=
  match n with
  | O => []
  | S n => b :: schedule cfg (grow cfg b) n
  end.



Definition fatal_error e : error Cause :=
  wrapError ("non-retryable error: " +:+ Error Cause_Error e) e.

Definition cancelled_error ctx (attempts : Z) : error Cause :=
  wrapError (("context cancelled after " +:+ fmt_d attempts +:+ " attempts: ")
             +:+ Error Cause_Error (ctx_Err ctx))
            (ctx_Err ctx).

(** The ways a run that has made [calls] calls from attempt number [first]
    on can end. *)
Definition outcome ctx cfg (first : Z) (calls : nat) (r : option (error Cause)) : Prop :=
  r = None \/
  (exists e, r = Some (fatal_error e) /\ retryable (Some e) = false) \/
  (exists last, r = Some (exceeded Cause_Error cfg last)) \/
  (r = Some (cancelled_error ctx (first + Z.of_nat calls)) /\
   (1 <= calls)%nat /\ first + Z.of_nat calls <= MaxRetries cfg).

(** The shape of every run of the loop. *)
Lemma loop_shape ctx cfg fn :
  forall fuel attempt backoff lastErr w,
    (Z.to_nat (MaxRetries cfg - attempt + 1) < fuel)%nat ->
    exists r w' (calls sel : nat),
      loop fuel ctx cfg fn attempt backoff lastErr w = Some (r, w') /\
      invocations (trace w') = (calls + invocations (trace w))%nat /\
      selects w' = (sel + selects w)%nat /\
      waits (trace w') = waits (trace w) ++ schedule cfg backoff sel /\
      (sel <= calls <= sel + 1)%nat /\
      Z.of_nat calls <= Z.max 0 (MaxRetries cfg + 1 - attempt) /\
      Z.of_nat sel <= Z.max 0 (MaxRetries cfg - attempt) /\
      outcome ctx cfg attempt calls r.
Proof.
  induction fuel as [|fuel IH]; intros attempt backoff lastErr w Hfuel; [lia|].
  destruct (Z.le_gt_cases attempt (MaxRetries cfg)) as [Hle|Hgt].
  2:{ rewrite loop_exit by exact Hgt. exists (Some (exceeded Cause_Error cfg lastErr)), w, 0%nat, 0%nat.
      cbn [schedule]. rewrite app_nil_r.
      repeat split; try lia. right; right; left. eauto. }
  destruct (fn (heap w)) as [[e|] h] eqn:Hfn.
  2:{ rewrite loop_success with (h := h) by assumption.
      eexists None, _, 1%nat, 0%nat. split; [reflexivity|].
      cbn [trace selects invocations waits schedule]. rewrite app_nil_r.
      repeat split; try lia. left. reflexivity. }
  destruct (retryable (Some e)) eqn:Hretry.
  2:{ rewrite loop_fatal with (e := e) (h := h) by assumption.
      eexists _, _, 1%nat, 0%nat. split; [reflexivity|].
      cbn [trace selects invocations waits schedule]. rewrite app_nil_r.
      repeat split; try lia. right; left. eauto. }
  destruct (Z.eq_dec attempt (MaxRetries cfg)) as [->|Hne].
  { rewrite loop_last with (e := e) (h := h) by assumption.
    eexists _, _, 1%nat, 0%nat. split; [reflexivity|].
    cbn [trace selects invocations waits schedule]. rewrite app_nil_r.
    repeat split; try lia. right; right; left. eauto. }
  assert (attempt < MaxRetries cfg) as Hlt by lia.
  destruct (select_Done ctx (selects w) backoff) eqn:Hsel.
  { rewrite loop_cancelled with (e := e) (h := h) by assumption.
    eexists _, _, 1%nat, 1%nat. split; [reflexivity|].
    cbn [trace selects invocations waits schedule].
    repeat split; try lia. right; right; right.
    split; [reflexivity|]. split; lia. }
  rewrite loop_again with (e := e) (h := h) by assumption.
  destruct (IH (attempt + 1) (grow cfg backoff) (Some e)
               (mkWorld h (S (selects w))
                  (EvSelect backoff false :: EvCall (Some e) :: trace w)))
    as (r & w' & calls & sel & Hrun & Hcalls & Hsels & Hwaits & Hrel & Hc & Hs & Hout);
    [lia|].
  exists r, w', (S calls), (S sel). split; [exact Hrun|].
  cbn [trace selects invocations waits] in Hcalls, Hsels, Hwaits.
  split; [lia|]. split; [lia|].
  split; [rewrite Hwaits, <- app_assoc; reflexivity|].
  split; [lia|]. split; [lia|]. split; [lia|].
  destruct Hout as [Hnil|[Hfatal|[Hlast|(Hcancel & Hone & Hmax)]]].
  - left. exact Hnil.
  - right; left. exact Hfatal.
  - right; right; left. exact Hlast.
  - right; right; right. rewrite Hcancel.
    replace (attempt + Z.of_nat (S calls)) with (attempt + 1 + Z.of_nat calls) by lia.
    split; [reflexivity|]. split; lia.
Qed.

(** X22.  Whatever the operation and the context do, a run makes at most
    [MaxRetries + 1] calls and at most [MaxRetries] waits (none at all when
    the budget is negative); between two calls there is exactly one wait, so
    that the calls are as many as the waits or one more. *)
Theorem RetryWithBackoff_stays_within_budget ctx (cfg : option RetryConfig) fn w :
  exists r w' (calls sel : nat),
    Retry ctx cfg fn w = Some (r, w') /\
    invocations (trace w') = (calls + invocations (trace w))%nat /\
    selects w' = (sel + selects w)%nat /\
    Z.of_nat calls <= Z.max 0 (MaxRetries (effective cfg) + 1) /\
    Z.of_nat sel <= Z.max 0 (MaxRetries (effective cfg)) /\
    (sel <= calls <= sel + 1)%nat.
Proof.
  unfold RetryWithBackoff.
  destruct (loop_shape ctx (effective cfg) fn
              (S (Z.to_nat (MaxRetries (effective cfg) + 1))) 0
              (InitialBackoff (effective cfg)) None w)
    as (r & w' & calls & sel & Hrun & Hcalls & Hsels & _ & Hrel & Hc & Hs & _); [lia|].
  exists r, w', calls, sel. rewrite Z.sub_0_r in Hc, Hs. auto 10.
Qed.


(** X24.  A run ends in one of four ways: without an error; with an error
    that wraps a failure classified as not retryable; with the "max retries
    exceeded" error; or with the "context cancelled" error, which wraps the
    context's error and whose count is the number of calls the run made,
    itself between 1 and the retry budget. *)
Theorem RetryWithBackoff_outcomes ctx (cfg : option RetryConfig) fn w :
  exists r w' (calls : nat),
    Retry ctx cfg fn w = Some (r, w') /\
    invocations (trace w') = (calls + invocations (trace w))%nat /\
    outcome ctx (effective cfg) 0 calls r.
Proof.
  unfold RetryWithBackoff.
  destruct (loop_shape ctx (effective cfg) fn
              (S (Z.to_nat (MaxRetries (effective cfg) + 1))) 0
              (InitialBackoff (effective cfg)) None w)
    as (r & w' & calls & sel & Hrun & Hcalls & _ & _ & _ & _ & _ & Hout); [lia|].
  exists r, w', calls. auto.
Qed.

End RetryMore.

(** ** [WithRetry]: the value that comes back *)

Section WithRetryFacts.
Import Retry.
Context {Cause X T : Type}.
Variable Cause_Error : Cause -> string.
Variables IsTimeout IsServerTimeout IsTooManyRequests IsInternalError
          IsServiceUnavailable : error Cause -> bool.
Variable zero : T.

Local Abbreviation retryable :=
  (isRetryable IsTimeout IsServerTimeout IsTooManyRequests IsInternalError
               IsServiceUnavailable).
Local Abbreviation With :=
  (WithRetry Cause_Error IsTimeout IsServerTimeout IsTooManyRequests
             IsInternalError IsServiceUnavailable zero).

Implicit Types (ctx : Context Cause) (w : World Cause X)
               (fn : X -> (T * option (error Cause)) * X).

(** The closure state of [assigning fn] moves as the one of [fn] does. *)
Lemma assigning_state fn (i : nat) (s : X * (T * option (error Cause))) :
  fst (state_after (assigning fn) i s) = state_after fn i (fst s).
Proof.
  unfold state_after. induction i as [|i IH]; [reflexivity|].
  rewrite !Nat.iter_succ, <- IH. unfold assigning at 1.
  destruct (fn _) as [r x]. reflexivity.
Qed.

Lemma assigning_result fn (s : X * (T * option (error Cause))) :
  fst (assigning fn s) = snd (fst (fn (fst s))).
Proof. unfold assigning. destruct (fn (fst s)) as [r x]. reflexivity. Qed.

(** X25.  When the wrapped operation fails with retryable errors [k] times,
    [k] at most 3, then succeeds with a value, and the context is never
    cancelled, [WithRetry] returns that value and no error, after [k + 1]
    calls of the operation. *)
Theorem WithRetry_returns_value_after_retries ctx fn w (k : nat) (t : T) (x' : X) :
  (k <= 3)%nat ->
  (forall n d, select_Done ctx n d = false) ->
  (forall i, (i < k)%nat ->
     exists e, snd (fst (fn (state_after fn i (heap w)))) = Some e /\
               retryable (Some e) = true) ->
  fn (state_after fn k (heap w)) = ((t, None), x') ->
  exists w',
    With ctx fn w = Some ((t, None), w') /\
    heap w' = x' /\
    invocations (trace w') = (S k + invocations (trace w))%nat /\
    selects w' = (k + selects w)%nat.
Proof.
  intros Hk Hctx Hfail Hok. unfold WithRetry.
  set (w0 := mkWorld (heap w, (zero, None)) (selects w) (trace w)).
  destruct (loop_succeeds_after Cause_Error IsTimeout IsServerTimeout IsTooManyRequests
              IsInternalError IsServiceUnavailable ctx
              (effective (Some DefaultRetryConfig)) (assigning fn) Hctx k
              (S (Z.to_nat (MaxRetries (effective (Some DefaultRetryConfig)) + 1))) 0
              (InitialBackoff (effective (Some DefaultRetryConfig))) None w0)
    as (w1 & Hrun & Hheap & Hcalls & Hsel).
  - cbn. lia.
  - cbn. lia.
  - intros i Hi. rewrite assigning_result, assigning_state. cbn [heap w0 fst].
    apply Hfail. exact Hi.
  - rewrite assigning_result, assigning_state. cbn [heap w0 fst]. rewrite Hok. reflexivity.
  - unfold RetryWithBackoff. rewrite Hrun.
    assert (heap w1 = (x', (t, None))) as Hfinal.
    { rewrite Hheap. unfold state_after. rewrite Nat.iter_succ.
      fold (state_after (assigning fn) k (heap w0)).
      unfold assigning at 1. rewrite assigning_state. cbn [heap w0 fst].
      rewrite Hok. reflexivity. }
    rewrite Hfinal. cbn [fst snd]. eexists. split; [reflexivity|].
    cbn [heap trace selects]. cbn [trace selects w0] in Hcalls, Hsel. auto.
Qed.

(** X26.  When the first call of the wrapped operation fails with an error
    that is not retryable, [WithRetry] returns the wrapped error together
    with the value that call produced, not the zero value, and the operation
    is not called again. *)
Theorem WithRetry_fatal_keeps_value ctx fn w (t : T) (e : error Cause) (x' : X) :
  fn (heap w) = ((t, Some e), x') ->
  retryable (Some e) = false ->
  exists w',
    With ctx fn w =
      Some ((t, Some (wrapError ("non-retryable error: " +:+ Error Cause_Error e) e)), w') /\
    heap w' = x' /\
    invocations (trace w') = S (invocations (trace w)).
Proof.
  intros Hfn Hfatal. unfold WithRetry, RetryWithBackoff.
  rewrite loop_fatal with (e := e) (h := (x', (t, Some e))).
  - cbn. eexists. split; [reflexivity|]. auto.
  - cbn. lia.
  - cbn [heap]. unfold assigning. cbn [fst]. rewrite Hfn. reflexivity.
  - exact Hfatal.
Qed.

End WithRetryFacts.

(** ** The further properties on concrete states *)

Local Ltac by_evaluation :=
  vm_compute; repeat split; solve [reflexivity | discriminate | intros; discriminate].

Lemma lookups_count_witness :
  let w' := snd (lookups (V := nat) (X := unit) ["a"; "b"; "a"]%string live_a) in
  Cache.hits (Cache.stats (Cache.cache w')) + Cache.misses (Cache.stats (Cache.cache w')) = 3 /\
  Cache.data (Cache.cache w') = Cache.data (Cache.cache live_a).
Proof.
  destruct (lookups_count_hits_and_misses ["a"; "b"; "a"]%string live_a)
    as (Hsum & _ & _ & _ & Hdata); [by_evaluation | by_evaluation | by_evaluation |].
  split; [exact Hsum | exact Hdata].
Defined.

Lemma ResetStatistics_then_lookups_witness :
  let w' := snd (lookups ["a"; "zz"]%string (snd (Cache.ResetStatistics one_hit_one_miss))) in
  Cache.Hits (fst (Cache.GetStatistics w')) + Cache.Misses (fst (Cache.GetStatistics w')) = 2.
Proof.
  destruct (ResetStatistics_then_lookups ["a"; "zz"]%string one_hit_one_miss)
    as (Hsum & _); [by_evaluation|].
  exact Hsum.
Defined.

Lemma Clear_empties_and_counts_witness :
  Cache.data (Cache.cache (snd (Cache.Clear live_a))) = ∅ /\
  Cache.evictions (Cache.stats (Cache.cache (snd (Cache.Clear live_a)))) = 0 + 1.
Proof.
  destruct (Clear_empties_and_counts live_a) as (Hdata & Hevictions & _);
    [by_evaluation | by_evaluation |].
  split; [exact Hdata | exact Hevictions].
Defined.

Lemma cleanupExpired_tick_witness :
  Cache.data (Cache.cache (snd (Cache.cleanupExpired_tick stale_a))) !! "a"%string = None /\
  Cache.evictions (Cache.stats (Cache.cache (snd (Cache.cleanupExpired_tick stale_a)))) = 1.
Proof.
  destruct (cleanupExpired_tick_removes_the_expired stale_a) as (Hkeys & Hevictions & _);
    [by_evaluation | by_evaluation |].
  split; [|rewrite Hevictions; reflexivity].
  destruct (Cache.data (Cache.cache (snd (Cache.cleanupExpired_tick stale_a))) !! "a"%string)
    as [entry|] eqn:Hlook; [|reflexivity].
  apply Hkeys in Hlook. destruct Hlook as [Hstored Hlive].
  injection Hstored as <-. exfalso. apply Hlive. reflexivity.
Defined.

Lemma GetStatistics_hit_rate_bounds_witness :
  (0 <= Cache.HitRate (fst (Cache.GetStatistics one_hit_one_miss)) /\
   Cache.HitRate (fst (Cache.GetStatistics one_hit_one_miss)) <= 100)%Q.
Proof.
  apply (GetStatistics_hit_rate_bounds one_hit_one_miss); by_evaluation.
Defined.

Lemma GetOrSet_memoizes_witness :
  let w1 := snd (Cache.GetOrSet "b" compute_7 live_a) in
  exists entry,
    Cache.data (Cache.cache w1) !! "b"%string = Some entry /\
    Cache.Value entry = Some 7%nat /\
    (clock_read (Cache.clock w1) <= Cache.Expiration entry ->
       fst (Cache.GetOrSet "b" compute_fails w1) = (Some 7%nat, None) /\
       Cache.compute_calls (snd (Cache.GetOrSet "b" compute_fails w1)) = Cache.compute_calls w1 /\
       Cache.heap (snd (Cache.GetOrSet "b" compute_fails w1)) = Cache.heap w1).
Proof.
  apply (GetOrSet_memoizes "b" compute_7 compute_fails live_a).
  reflexivity.
Defined.

Definition entropy_of (gen : nat -> byte) : Session.Entropy string :=
  Session.mkEntropy (fun _ => inl gen) 0.

(** A generator that gives zero bytes for the first 16 draws only. *)
Definition zeros_then_ones (n : nat) : byte := if (n <? 16)%nat then x00 else x01.

Lemma generateSessionID_injective_witness :
  map zeros_then_ones (seq 0 16) = map (fun _ : nat => x00) (seq 0 16).
Proof.
  apply (generateSessionID_injective
           (full_of_gone (entropy_of zeros_then_ones))
           (full_of_gone (entropy_of (fun _ => x00)))); reflexivity.
Defined.

Lemma CreateSession_then_GetSession_witness :
  let r := Session.CreateSession (fun c : string => c) tt (full_of_gone zero_bytes) in
  let s := Session.mkSession "00000000000000000000000000000000" 101 601 101 tt in
  Session.sessions (Session.sm (snd r)) !! Session.ID s = Some s /\
  String.length (Session.ID s) = 32%nat /\
  fst (Session.GetSession (Session.ID s) (snd r)) = Some s.
Proof.
  destruct (CreateSession_then_GetSession (fun c : string => c) tt (full_of_gone zero_bytes)
              (Session.mkSession "00000000000000000000000000000000" 101 601 101 tt)
              (snd (Session.CreateSession (fun c : string => c) tt (full_of_gone zero_bytes))))
    as (Hstored & _ & _ & _ & Hlength & Hget); [by_evaluation|].
  split; [exact Hstored|]. split; [exact Hlength|].
  apply Hget. by_evaluation.
Defined.

Lemma clock_from_100_monotone : monotone clock_from_100.
Proof. intros n. cbn. lia. Qed.

Lemma TouchSession_never_shortens_witness :
  exists s',
    Session.sessions (Session.sm (snd (Session.TouchSession "s1" touch_world))) !! "s1"%string
      = Some s' /\
    590 <= Session.ExpiresAt s' /\
    Session.LastUsed s' + 500 <= Session.ExpiresAt s'.
Proof.
  apply (TouchSession_never_shortens "s1" touch_world live_session);
    [reflexivity | by_evaluation | by_evaluation | exact clock_from_100_monotone].
Defined.

Lemma cleanupExpired_twice_witness :
  Session.sessions
    (Session.sm (snd (Session.cleanupExpired
                        (snd (Session.cleanupExpired (full_of_gone zero_bytes))))))
    = kept (Meta := unit) 101 {[ "s1"%string := gone_session ]}.
Proof.
  destruct (cleanupExpired_twice (full_of_gone zero_bytes)) as [Hkept _]; [by_evaluation|].
  exact Hkept.
Defined.

(** An operation that times out on its first two calls and succeeds from the
    third on; the captured state counts the calls. *)
Definition flaky (calls : nat) : option (error string) * nat :=
  if (calls <? 2)%nat then (Some (foreignError "timeout"%string), S calls)
  else (None, S calls).

Lemma RetryWithBackoff_succeeds_after_retries_witness :
  exists w',
    retry_run never_cancelled (Some two_retries) flaky fresh_run = Some (None, w') /\
    Retry.heap w' = 3%nat /\
    Retry.invocations (Retry.trace w') = 3%nat /\
    Retry.selects w' = 2%nat.
Proof.
  apply (RetryWithBackoff_succeeds_after_retries (fun c : string => c)
           is_timeout is_never is_never is_never is_never
           never_cancelled (Some two_retries) flaky fresh_run 2).
  - by_evaluation.
  - intros n d. reflexivity.
  - intros [|[|i]] Hi; [eexists; split; reflexivity | eexists; split; reflexivity | lia].
  - reflexivity.
Defined.

(** The same for an operation that returns a value. *)
Definition flaky_value (calls : nat) : (nat * option (error string)) * nat :=
  if (calls <? 2)%nat then ((0%nat, Some (foreignError "timeout"%string)), S calls)
  else ((42%nat, None), S calls).

Definition forbidden_value (calls : nat) : (nat * option (error string)) * nat :=
  ((7%nat, Some (foreignError "forbidden"%string)), S calls).

Definition with_retry_run :
    Retry.Context string -> (nat -> (nat * option (error string)) * nat) ->
    Retry.World string nat ->
    option ((nat * option (error string)) * Retry.World string nat) :=
  Retry.WithRetry (fun c : string => c) is_timeout is_never is_never is_never is_never 0%nat.

Lemma WithRetry_returns_value_witness :
  exists w',
    with_retry_run never_cancelled flaky_value fresh_run = Some ((42%nat, None), w') /\
    Retry.heap w' = 3%nat /\
    Retry.invocations (Retry.trace w') = 3%nat /\
    Retry.selects w' = 2%nat.
Proof.
  apply (WithRetry_returns_value_after_retries (fun c : string => c)
           is_timeout is_never is_never is_never is_never 0%nat
           never_cancelled flaky_value fresh_run 2 42%nat 3%nat).
  - lia.
  - intros n d. reflexivity.
  - intros [|[|i]] Hi; [eexists; split; reflexivity | eexists; split; reflexivity | lia].
  - reflexivity.
Defined.

Lemma WithRetry_fatal_keeps_value_witness :
  exists w',
    with_retry_run never_cancelled forbidden_value fresh_run
      = Some ((7%nat, Some (wrapError ("non-retryable error: " +:+ "forbidden")
                                      (foreignError "forbidden"%string))), w') /\
    Retry.heap w' = 1%nat /\
    Retry.invocations (Retry.trace w') = 1%nat.
Proof.
  apply (WithRetry_fatal_keeps_value (fun c : string => c)
           is_timeout is_never is_never is_never is_never 0%nat
           never_cancelled forbidden_value fresh_run 7%nat
           (foreignError "forbidden"%string) 1%nat); reflexivity.
Defined.
